(** * OSMDownloader: the refresh pipeline of [downloader_osm.py]

    A shallow embedding of the class [OSMDownloader] and a verification of
    the properties its specification states about it.

    The program talks to four collaborators: the local file system
    ([os], [shutil], [open]), the remote extract server ([requests]), the
    PostgreSQL connection ([psycopg2]) and the importer ([osm2pgsql], run as
    a subprocess).  Each method is embedded as a function in a monad that
    threads the state of these collaborators, records what the program sends
    to them, and distinguishes a normal return, a raised exception and
    [sys.exit].  The database is kept abstract behind the class [Database];
    a table-set instance serves to run the program on concrete inputs. *)

From Stdlib Require Import ZArith Lia Strings.Byte.
From stdpp Require Import base strings list gmap.

Local Open Scope Z_scope.
Local Open Scope string_scope.

(** ** Exceptions, outcomes *)

(** The exception classes the program can meet.  [RequestException] is what
    [requests.head] and [requests.get] raise, [ProtocolError] what a read on
    [response.raw] raises, [DatabaseError] what a cursor or a connection of
    psycopg2 raises. *)
Inductive Exn :=
| FileNotFoundError
| PermissionError
| OSError
| RequestException
| ProtocolError
| KeyError
| ValueError
| AttributeError
| DatabaseError.

Global Instance Exn_eq_dec : EqDecision Exn.
Proof. solve_decision. Defined.

(** [except FileNotFoundError], [except PermissionError], [except OSError]:
    the first two are subclasses of [OSError], and so is
    [requests.RequestException] (it derives from [IOError]). *)
Definition is_FileNotFoundError (e : Exn) : bool :=
  match e with FileNotFoundError => true | _ => false end.

Definition is_PermissionError (e : Exn) : bool :=
  match e with PermissionError => true | _ => false end.

Definition is_OSError (e : Exn) : bool :=
  match e with
  | FileNotFoundError | PermissionError | OSError | RequestException => true
  | _ => false
  end.

(** How a call ends: it returns a value, an exception leaves it, or
    [sys.exit(code)] ends the process ([SystemExit] is not an [Exception],
    no handler of the program catches it). *)
Inductive Outcome (A : Type) :=
| Return (a : A)
| Raise (e : Exn)
| Exit (code : Z).
Arguments Return {A} a.
Arguments Raise {A} e.
Arguments Exit {A} code.

(** ** What the program sends to its collaborators *)

(** The SQL texts the program builds, by shape:
    - [CopyTable orig dest] is the text of [_copy_table]:
      DROP TABLE IF EXISTS dest; CREATE TABLE dest (LIKE orig INCLUDING ...);
      INSERT INTO dest SELECT * FROM orig;
    - [DropTableIfExists t] is DROP TABLE IF EXISTS t;
    - [CreateLayer layer source] is an entry of [LAYERS]:
      SELECT ... INTO layer FROM source WHERE ...; ALTER TABLE layer ADD
      CONSTRAINT ...; CREATE INDEX ... ON layer (code);
    all inside the schema of the configuration. *)
Inductive Stmt :=
| CopyTable (orig dest : string)
| DropTableIfExists (table : string)
| CreateLayer (layer source : string).

Global Instance Stmt_eq_dec : EqDecision Stmt.
Proof. solve_decision. Defined.

Inductive Level := INFO | WARNING | ERROR | FATAL.

Global Instance Level_eq_dec : EqDecision Level.
Proof. solve_decision. Defined.

(** The messages of the program, one constructor per call of [logging]. *)
Inductive LogMsg :=
| MsgCheckingMapFile | MsgAccessDenied | MsgCannotBackupFile
| MsgFileBackupCreated | MsgFileBackupFailedDownloadingAnyway
| MsgDownloadDoneReadyToUpdate | MsgDownloadFailedRestoring | MsgDownloadFailed
| MsgNoUpdateNeeded | MsgUpdateNeeded | MsgMapFileNotFoundUpdateNeeded
| MsgDownloadError (err : Exn)
| MsgConnected | MsgConnectFailed | MsgDisconnected
| MsgFileRestored | MsgFileRestoreFailed (err : Exn)
| MsgFileBackupDeleted | MsgFileBackupDeleteFailed (err : Exn)
| MsgTableBackupsRestored | MsgDbUpdateFailed | MsgDbUpdateDone
| MsgBackingUpTables | MsgBackingUpTable (table : string)
| MsgTableBackupFailed (table : string) (err : Exn) | MsgTableBackupsDone
| MsgRestoringTables | MsgRestoringTable (table : string)
| MsgTableRestoreFailed (table : string) (err : Exn) | MsgTablesRestored
| MsgDropTableFailed (table : string) (err : Exn)
| MsgImportStarting | MsgImportFailed (returncode : Z)
| MsgCreatingLayers | MsgCreatingLayer (layer : string)
| MsgLayerFailed (layer : string) (err : Exn)
| MsgLayersFailed | MsgLayersCreated
| MsgBackingUpLayers | MsgBackingUpLayer (layer : string)
| MsgLayerBackupFailed (layer : string) (err : Exn)
| MsgRestoringLayers | MsgRestoringLayer (layer : string)
| MsgLayerRestoreFailed (layer : string) (err : Exn).

(** The observable steps of a call, in the order they happen.  [EvExecute q
    ok] is a statement handed to the cursor ([ok] tells whether the database
    accepted it), [EvCommit] a commit on the connection, [EvImport rc] a run
    of the importer that ended with return code [rc]. *)
Inductive Event :=
| EvLog (lvl : Level) (msg : LogMsg)
| EvExecute (q : Stmt) (ok : bool)
| EvCommit (ok : bool)
| EvImport (returncode : Z).

Global Instance LogMsg_eq_dec : EqDecision LogMsg.
Proof. solve_decision. Defined.

Global Instance Event_eq_dec : EqDecision Event.
Proof. solve_decision. Defined.

(** ** The collaborators *)

(** The database behind the connection and the importer that loads an
    extract into it.  [db_execute q d] is [cursor.execute(q)]: whether the
    statement was accepted, and the database afterwards; [db_commit] is
    [connection.commit()]; [db_import extract d] is a run of osm2pgsql in
    create mode on the extract file (absent when the file does not exist):
    its return code and the database afterwards; [db_exists t d] tells
    whether table [t] exists. *)
Class Database (DB : Type) := {
  db_execute : Stmt → DB → bool * DB;
  db_commit : DB → bool * DB;
  db_import : option (list byte) → DB → Z * DB;
  db_exists : string → DB → bool
}.

(** The operations on the download directory that can be refused. *)
Inductive FsOp := OpStat | OpMove | OpOpen | OpWrite | OpRemove.

(** The outcome of [int(headers["Content-Length"])]: the header is absent
    ([KeyError]), is not the text of an integer ([ValueError]), or gives
    the integer. *)
Inductive ContentLength :=
| LengthMissing
| LengthNotAnInteger
| LengthIs (n : Z).

(** One [response.raw.read(1024 * 1024)]: the bytes read, or an error of the
    transport.  Past the end of the list every read gives no bytes. *)
Inductive ReadResult :=
| Chunk (data : list byte)
| ReadFails.

Record Response := {
  content_length : ContentLength;
  raw : list ReadResult
}.

(** The handles of psycopg2, as the attributes [conn] and [cur] hold them. *)
Inductive Connection := PgConnection.
Inductive Cursor := PgCursor.

(** ** The state and the monad of the program *)

Section Program.
Context {DB : Type} `{Database DB}.

(** Everything a call can read or change: the files of the download
    directory (by file name), which file operations are refused, what the
    extract server answers to the metadata request and to the retrieval
    request ([None]: the request raises), whether the database server can be
    reached and whether the importer can be started, the database, and the
    two attributes of the object. *)
Record World := {
  files : gmap string (list byte);
  fs_fault : FsOp → option Exn;
  remote_head : option ContentLength;
  remote_get : option Response;
  pg_reachable : bool;
  osm2pgsql_installed : bool;
  db : DB;
  conn : option Connection;
  cur : option Cursor
}.

Definition set_files (f : gmap string (list byte)) (w : World) : World :=
  {| files := f; fs_fault := fs_fault w; remote_head := remote_head w;
     remote_get := remote_get w; pg_reachable := pg_reachable w;
     osm2pgsql_installed := osm2pgsql_installed w; db := db w;
     conn := conn w; cur := cur w |}.

Definition set_db (d : DB) (w : World) : World :=
  {| files := files w; fs_fault := fs_fault w; remote_head := remote_head w;
     remote_get := remote_get w; pg_reachable := pg_reachable w;
     osm2pgsql_installed := osm2pgsql_installed w; db := d;
     conn := conn w; cur := cur w |}.

Definition set_conn (c : option Connection) (w : World) : World :=
  {| files := files w; fs_fault := fs_fault w; remote_head := remote_head w;
     remote_get := remote_get w; pg_reachable := pg_reachable w;
     osm2pgsql_installed := osm2pgsql_installed w; db := db w;
     conn := c; cur := cur w |}.

Definition set_cur (c : option Cursor) (w : World) : World :=
  {| files := files w; fs_fault := fs_fault w; remote_head := remote_head w;
     remote_get := remote_get w; pg_reachable := pg_reachable w;
     osm2pgsql_installed := osm2pgsql_installed w; db := db w;
     conn := conn w; cur := c |}.

(** The result of running a computation: how it ended, the state it left,
    and the events it produced, oldest first. *)
Record Result (A : Type) := mkResult {
  outcome : Outcome A;
  final : World;
  events : list Event
}.
Arguments mkResult {A} outcome final events.
Arguments outcome {A} r.
Arguments final {A} r.
Arguments events {A} r.

Definition M (A : Type) : Type := World → Result A.

Definition ret {A} (a : A) : M A := λ w, mkResult (Return a) w [].

(** [prepend evs r]: the result [r], after the events [evs]. *)
Definition prepend {A} (evs : list Event) (r : Result A) : Result A :=
  match r with
  | mkResult o w evs' => mkResult o w (evs ++ evs')%list
  end.

Definition bind {A B} (m : M A) (k : A → M B) : M B := λ w,
  match m w with
  | mkResult (Return a) w' evs => prepend evs (k a w')
  | mkResult (Raise e) w' evs => mkResult (Raise e) w' evs
  | mkResult (Exit code) w' evs => mkResult (Exit code) w' evs
  end.

Global Instance M_ret : MRet M := @ret.
Global Instance M_bind : MBind M := λ A B k m, bind m k.

(** [raise e] and [sys.exit(code)]. *)
Definition raise {A} (e : Exn) : M A := λ w, mkResult (Raise e) w [].
Definition sys_exit {A} (code : Z) : M A := λ w, mkResult (Exit code) w [].

(** [try: body  except ...: handler]: [handler err] is [None] when no
    [except] clause matches [err]; then the exception goes on. *)
Definition try_except {A} (body : M A) (handler : Exn → option (M A)) : M A :=
  λ w,
  match body w with
  | mkResult (Raise e) w' evs =>
      match handler e with
      | Some h => prepend evs (h w')
      | None => mkResult (Raise e) w' evs
      end
  | r => r
  end.

(** [logging.info], [logging.warning], [logging.error], [logging.fatal]. *)
Definition logging (lvl : Level) (msg : LogMsg) : M unit :=
  λ w, mkResult (Return tt) w [EvLog lvl msg].

(** ** The calls into the collaborators *)

(** [os.stat(path).st_size] *)
Definition os_stat_size (name : string) : M Z := λ w,
  match files w !! name with
  | None => raise FileNotFoundError w
  | Some data =>
      match fs_fault w OpStat with
      | Some e => raise e w
      | None => ret (Z.of_nat (length data)) w
      end
  end.

(** [os.path.exists(path)] and [os.remove(path)] *)
Definition os_path_exists (name : string) : M bool := λ w,
  ret (bool_decide (is_Some (files w !! name))) w.

Definition os_remove (name : string) : M unit := λ w,
  match files w !! name with
  | None => raise FileNotFoundError w
  | Some _ =>
      match fs_fault w OpRemove with
      | Some e => raise e w
      | None => ret tt (set_files (delete name (files w)) w)
      end
  end.

(** [open(path, "wb")]: the file is created, or emptied. *)
Definition open_wb (name : string) : M unit := λ w,
  match fs_fault w OpOpen with
  | Some e => raise e w
  | None => ret tt (set_files (<[name := []]> (files w)) w)
  end.

(** [file.write(chunk)] on the file opened by [open_wb]. *)
Definition file_write (name : string) (chunk : list byte) : M unit := λ w,
  match fs_fault w OpWrite with
  | Some e => raise e w
  | None => ret tt (set_files (alter (λ data, (data ++ chunk)%list) name (files w)) w)
  end.

(** [shutil.move(src, dst)] on two files of the download directory.  It
    first tries [os.rename(src, dst)], which replaces [dst].  When the
    rename is refused with an [OSError], [shutil.move] falls back on
    [copy2(src, dst)] followed by [os.unlink(src)]: [dst] is opened for
    writing and receives the bytes of [src], and only then is [src]
    removed; the exception of whichever step is refused leaves the call,
    with [dst] already emptied or overwritten.  ([os.remove] and
    [os.unlink] are the same function; [copy2] also copies the metadata,
    of which the state keeps nothing.) *)
Definition shutil_move (src dst : string) : M unit := λ w,
  match files w !! src with
  | None => raise FileNotFoundError w
  | Some data =>
      match fs_fault w OpMove with
      | None => ret tt (set_files (<[dst := data]> (delete src (files w))) w)
      | Some e =>
          if is_OSError e then
            (open_wb dst;; file_write dst data;; os_remove src) w
          else raise e w
      end
  end.

(** [requests.head(url).headers] and [requests.get(url, stream=True)] *)
Definition requests_head : M ContentLength := λ w,
  match remote_head w with
  | None => raise RequestException w
  | Some h => ret h w
  end.

Definition requests_get : M Response := λ w,
  match remote_get w with
  | None => raise RequestException w
  | Some r => ret r w
  end.

(** [int(headers["Content-Length"])] *)
Definition int_content_length (h : ContentLength) : M Z :=
  match h with
  | LengthMissing => raise KeyError
  | LengthNotAnInteger => raise ValueError
  | LengthIs n => ret n
  end.

(** [psycopg2.connect(...)], and reading and setting the attributes. *)
Definition psycopg2_connect : M Connection := λ w,
  if pg_reachable w then ret PgConnection w else raise DatabaseError w.

Definition get_attr_conn : M (option Connection) := λ w, ret (conn w) w.
Definition set_attr_conn (c : option Connection) : M unit :=
  λ w, ret tt (set_conn c w).
Definition set_attr_cur (c : option Cursor) : M unit :=
  λ w, ret tt (set_cur c w).

(** [self.cur.execute(query)]: on [None] the attribute lookup raises and
    nothing reaches the database. *)
Definition cur_execute (query : Stmt) : M unit := λ w,
  match cur w with
  | None => raise AttributeError w
  | Some _ =>
      let r := db_execute query (db w) in
      mkResult (if r.1 then Return tt else Raise DatabaseError)
               (set_db r.2 w) [EvExecute query r.1]
  end.

(** [self.conn.commit()] *)
Definition conn_commit : M unit := λ w,
  match conn w with
  | None => raise AttributeError w
  | Some _ =>
      let r := db_commit (db w) in
      mkResult (if r.1 then Return tt else Raise DatabaseError)
               (set_db r.2 w) [EvCommit r.1]
  end.

(** [self.cur.close()] and [self.conn.close()] *)
Definition cur_close : M unit := λ w,
  match cur w with
  | None => raise AttributeError w
  | Some _ => ret tt w
  end.

Definition conn_close : M unit := λ w,
  match conn w with
  | None => raise AttributeError w
  | Some _ => ret tt w
  end.

(** [subprocess.run(["osm2pgsql", ...]).returncode]: starting a program
    that is not installed raises [FileNotFoundError]. *)
Definition subprocess_run_osm2pgsql (extract : string) : M Z := λ w,
  if osm2pgsql_installed w then
    let r := db_import (files w !! extract) (db w) in
    mkResult (Return r.1) (set_db r.2 w) [EvImport r.1]
  else raise FileNotFoundError w.


(** ** The class attributes *)

Definition PBF_FILENAME : string := "map.pbf".
Definition PBF_BACKUP : string := "map.backup".

Definition TABLES_OSM : list string :=
  [ "planet_osm_line"; "planet_osm_point"; "planet_osm_polygon";
    "planet_osm_roads" ].

(** The dictionary [LAYERS], in the order of its keys (a Python dictionary
    is iterated in the order its keys were inserted). *)
Definition LAYERS : list (string * Stmt) :=
  [ ("line_water", CreateLayer "line_water" "planet_osm_line");
    ("area_water", CreateLayer "area_water" "planet_osm_polygon") ].

(** [f'{t}_backup'] *)
Definition backup_name (t : string) : string := t +:+ "_backup".

(** ** The methods *)

(** [__init__]: both attributes start as [None]. *)
Definition init (w : World) : World := set_cur None (set_conn None w).

Definition _create_file_backup : M unit :=
  shutil_move PBF_FILENAME PBF_BACKUP.

Definition manage_backup : M bool :=
  try_except
    (_create_file_backup;; mret true)
    (λ err, if is_FileNotFoundError err then Some (mret false) else None).

Definition check_if_obsolete : M bool :=
  try_except
    (local_file_size ← os_stat_size PBF_FILENAME;
     headers ← requests_head;
     remote_file_size ← int_content_length headers;
     if bool_decide (local_file_size = remote_file_size) then
       logging INFO MsgNoUpdateNeeded;; mret false
     else
       logging INFO MsgUpdateNeeded;; mret true)
    (λ err, if is_FileNotFoundError err then
              Some (logging INFO MsgMapFileNotFoundUpdateNeeded;; mret false)
            else None).

(** The loop of [download_pbf].  A read past the end of the stream gives no
    bytes, which leaves the loop ([break]), as does an empty chunk.  The
    progress report inside the loop only logs and is left out. *)
Fixpoint download_loop (total_size downloaded_size : Z)
    (stream : list ReadResult) {struct stream} : M unit :=
  if bool_decide (downloaded_size < total_size) then
    match stream with
    | [] => mret tt
    | ReadFails :: _ => raise ProtocolError
    | Chunk [] :: _ => mret tt
    | Chunk chunk :: rest =>
        file_write PBF_FILENAME chunk;;
        download_loop total_size
          (downloaded_size + Z.of_nat (length chunk)) rest
    end
  else mret tt.

(** In the methods below a [return] inside a [try] or a handler is written
    as [Some v], and falling out of the [try] statement as [None]. *)
Definition download_pbf : M bool :=
  r ← try_except
        (open_wb PBF_FILENAME;;
         response ← requests_get;
         total_size ← int_content_length (content_length response);
         download_loop total_size 0 (raw response);;
         mret None)
        (λ err, Some (logging FATAL (MsgDownloadError err);;
                      mret (Some false)));
  match r with
  | Some v => mret v
  | None => mret true
  end.

Definition restore_backup : M unit :=
  try_except
    (shutil_move PBF_BACKUP PBF_FILENAME;;
     logging INFO MsgFileRestored)
    (λ err, Some (logging WARNING (MsgFileRestoreFailed err))).

Definition delete_backup : M unit :=
  try_except
    (present ← os_path_exists PBF_BACKUP;
     if present : bool then
       os_remove PBF_BACKUP;;
       logging INFO MsgFileBackupDeleted
     else mret tt)
    (λ err, Some (logging WARNING (MsgFileBackupDeleteFailed err))).

Definition prepare_download : M bool :=
  logging INFO MsgCheckingMapFile;;
  backup_is_done ←
    try_except manage_backup
      (λ err,
         if is_PermissionError err then
           Some (logging FATAL MsgAccessDenied;; sys_exit 1)
         else if is_OSError err then
           Some (logging FATAL MsgCannotBackupFile;; sys_exit 1)
         else None);
  (if backup_is_done : bool then logging INFO MsgFileBackupCreated
   else logging WARNING MsgFileBackupFailedDownloadingAnyway);;
  mret backup_is_done.

Definition prepare_update (backup_is_done : bool) : M bool :=
  download_is_done ← download_pbf;
  (if backup_is_done && download_is_done then
     logging INFO MsgDownloadDoneReadyToUpdate;;
     delete_backup
   else if backup_is_done && negb download_is_done then
     logging FATAL MsgDownloadFailedRestoring;;
     restore_backup;;
     sys_exit 1
   else
     logging FATAL MsgDownloadFailed;;
     sys_exit 1);;
  mret download_is_done.

(** [connect]: the only place that sets [conn] and [cur]. *)
Definition connect : M unit :=
  try_except
    (c ← psycopg2_connect;
     set_attr_conn (Some c);;
     set_attr_cur (Some PgCursor);;
     logging INFO MsgConnected)
    (λ err, Some (logging FATAL MsgConnectFailed;; sys_exit 1)).

Definition disconnect : M unit :=
  c ← get_attr_conn;
  match c with
  | Some _ =>
      cur_close;;
      conn_close;;
      logging INFO MsgDisconnected
  | None => mret tt
  end.

Definition _copy_table (orig_table dest_table : string) : M unit :=
  cur_execute (CopyTable orig_table dest_table);;
  conn_commit.

Fixpoint backup_tables_loop (table_list : list string) : M bool :=
  match table_list with
  | [] => logging INFO MsgTableBackupsDone;; mret true
  | table :: rest =>
      r ← try_except
            (logging INFO (MsgBackingUpTable table);;
             _copy_table table (backup_name table);;
             mret None)
            (λ err, Some (logging WARNING (MsgTableBackupFailed table err);;
                          mret (Some false)));
      match r with
      | Some v => mret v
      | None => backup_tables_loop rest
      end
  end.

Definition backup_tables (table_list : list string) : M bool :=
  logging INFO MsgBackingUpTables;;
  backup_tables_loop table_list.

Fixpoint restore_tables_loop (table_list : list string) : M bool :=
  match table_list with
  | [] => logging INFO MsgTablesRestored;; mret true
  | table :: rest =>
      r ← try_except
            (logging INFO (MsgRestoringTable table);;
             _copy_table (backup_name table) table;;
             mret None)
            (λ err, Some (logging ERROR (MsgTableRestoreFailed table err);;
                          mret (Some false)));
      match r with
      | Some v => mret v
      | None => restore_tables_loop rest
      end
  end.

Definition restore_tables (table_list : list string) : M bool :=
  logging INFO MsgRestoringTables;;
  restore_tables_loop table_list.

Fixpoint drop_tables (table_list : list string) : M bool :=
  match table_list with
  | [] => mret true
  | table :: rest =>
      r ← try_except
            (cur_execute (DropTableIfExists table);;
             conn_commit;;
             mret None)
            (λ err, Some (logging WARNING (MsgDropTableFailed table err);;
                          mret (Some false)));
      match r with
      | Some v => mret v
      | None => drop_tables rest
      end
  end.

Definition update_osm_tables : M bool :=
  logging INFO MsgImportStarting;;
  returncode ← subprocess_run_osm2pgsql PBF_FILENAME;
  if bool_decide (returncode ≠ 0) then
    logging FATAL (MsgImportFailed returncode);;
    mret false
  else mret true.

Definition update_db : M bool :=
  backup_is_done ← backup_tables TABLES_OSM;
  drop_tables TABLES_OSM;;
  update_complete ← update_osm_tables;
  (if update_complete && backup_is_done then
     drop_tables (backup_name <$> TABLES_OSM);; mret tt
   else if negb update_complete then
     (if backup_is_done then
        restored ← restore_tables TABLES_OSM;
        if restored : bool then
          drop_tables (backup_name <$> TABLES_OSM);;
          logging WARNING MsgTableBackupsRestored
        else mret tt
      else mret tt);;
     logging FATAL MsgDbUpdateFailed;;
     disconnect;;
     sys_exit 1
   else mret tt);;
  logging INFO MsgDbUpdateDone;;
  mret update_complete.

Fixpoint backup_layers_loop (layers : list string) : M bool :=
  match layers with
  | [] => mret true
  | layer :: rest =>
      r ← try_except
            (logging INFO (MsgBackingUpLayer layer);;
             _copy_table layer (backup_name layer);;
             mret None)
            (λ err, Some (logging WARNING (MsgLayerBackupFailed layer err);;
                          mret (Some false)));
      match r with
      | Some v => mret v
      | None => backup_layers_loop rest
      end
  end.

Definition backup_layers : M bool :=
  logging INFO MsgBackingUpLayers;;
  backup_layers_loop (LAYERS.*1).

(** [restore_layers]: defined by the class, called from nowhere. *)
Fixpoint restore_layers_loop (layers : list string) : M unit :=
  match layers with
  | [] => mret tt
  | layer :: rest =>
      try_except
        (logging INFO (MsgRestoringLayer layer);;
         _copy_table (backup_name layer) layer)
        (λ err, Some (logging FATAL (MsgLayerRestoreFailed layer err);;
                      sys_exit 1));;
      restore_layers_loop rest
  end.

Definition restore_layers : M unit :=
  logging INFO MsgRestoringLayers;;
  restore_layers_loop (LAYERS.*1).

(** The loop of [create_layers]; its result is [layers_created]. *)
Fixpoint create_layers_loop (items : list (string * Stmt)) : M bool :=
  match items with
  | [] => mret true
  | (layer, query) :: rest =>
      r ← try_except
            (logging INFO (MsgCreatingLayer layer);;
             cur_execute query;;
             conn_commit;;
             mret None)
            (λ err, Some (logging ERROR (MsgLayerFailed layer err);;
                          mret (Some false)));
      match r with
      | Some v => mret v
      | None => create_layers_loop rest
      end
  end.

Definition create_layers : M unit :=
  logging INFO MsgCreatingLayers;;
  backup_is_done ← backup_layers;
  drop_tables (LAYERS.*1);;
  layers_created ← create_layers_loop LAYERS;
  (if negb layers_created then
     logging FATAL MsgLayersFailed;;
     sys_exit 1
   else mret tt);;
  (if backup_is_done : bool then
     drop_tables (backup_name <$> LAYERS.*1);; mret tt
   else mret tt);;
  logging INFO MsgLayersCreated.

Definition run (force_download force_update recreate_layers : bool) : M unit :=
  download_is_obsolete ← check_if_obsolete;
  let download_is_done := false in
  let db_updated := false in
  (if download_is_obsolete || force_download then
     backup_is_done ← prepare_download;
     prepare_update backup_is_done;;
     mret tt
   else if negb force_update && negb recreate_layers then
     sys_exit 0
   else mret tt);;
  db_updated ← (if download_is_done || force_update then update_db
                else mret db_updated);
  if db_updated || recreate_layers then create_layers else mret tt.

(** The module's own code after the class: a fresh object, and
    [app.run(force_download=False, force_update=False, recreate_layers=True)]. *)
Definition main : M unit := λ w, run false false true (init w).

End Program.

Arguments World DB : clear implicits.
Arguments Result DB A : clear implicits.
Arguments M DB A : clear implicits.
Arguments mkResult {DB A} outcome final events.
Arguments outcome {DB A} r.
Arguments final {DB A} r.
Arguments events {DB A} r.

(** ** A database of table names

    A database that runs the program on concrete inputs: the set of the
    tables that exist, whether the transaction of the connection is in the
    failed state, and the return code the importer will give.  It behaves as
    PostgreSQL does behind psycopg2: a statement that fails leaves the
    tables as they were and puts the transaction in the failed state, in
    which every further statement is refused until a commit or a rollback
    ends it.  The importer works over a connection of its own. *)
Module TableDb.

Record t := mk {
  tables : gset string;
  failed_transaction : bool;
  importer_returncode : Z
}.

Definition with_tables (s : gset string) (d : t) : t :=
  mk s (failed_transaction d) (importer_returncode d).

Definition fail (d : t) : t := mk (tables d) true (importer_returncode d).

Definition execute (q : Stmt) (d : t) : bool * t :=
  if failed_transaction d then (false, d)
  else
    match q with
    | CopyTable orig dest =>
        if bool_decide (orig ∈ tables d)
        then (true, with_tables ({[dest]} ∪ tables d) d)
        else (false, fail d)
    | DropTableIfExists table => (true, with_tables (tables d ∖ {[table]}) d)
    | CreateLayer layer source =>
        if bool_decide (source ∈ tables d) && negb (bool_decide (layer ∈ tables d))
        then (true, with_tables ({[layer]} ∪ tables d) d)
        else (false, fail d)
    end.

Definition commit (d : t) : bool * t :=
  (true, mk (tables d) false (importer_returncode d)).

Definition import (extract : option (list byte)) (d : t) : Z * t :=
  match extract with
  | None => (1, d)
  | Some _ =>
      if bool_decide (importer_returncode d = 0)
      then (0, with_tables (list_to_set TABLES_OSM ∪ tables d) d)
      else (importer_returncode d, d)
  end.

Definition exists_ (table : string) (d : t) : bool :=
  bool_decide (table ∈ tables d).

Global Instance database : Database t := {
  db_execute := execute;
  db_commit := commit;
  db_import := import;
  db_exists := exists_
}.

(** A world around a database: no file operation is refused, the server can
    be reached, the importer is installed. *)
Definition world (fs : gmap string (list byte)) (head : option ContentLength)
    (get : option Response) (d : t) (connected : bool) : World t :=
  {| files := fs; fs_fault := λ _, None;
     remote_head := head; remote_get := get;
     pg_reachable := true; osm2pgsql_installed := true;
     db := d;
     conn := if connected then Some PgConnection else None;
     cur := if connected then Some PgCursor else None |}.

End TableDb.

(** ** Notions the statements use *)

(** The statements that were sent to the database, accepted or refused, in
    the order of sending. *)
Definition statement_of (ev : Event) : option Stmt :=
  match ev with EvExecute q _ => Some q | _ => None end.

Definition statements (evs : list Event) : list Stmt := omap statement_of evs.

(** The layers whose build statement was sent, in the order of sending. *)
Definition layer_of (q : Stmt) : option string :=
  match q with CreateLayer layer _ => Some layer | _ => None end.

Definition layers_sent (evs : list Event) : list string :=
  omap layer_of (statements evs).

(** Names in name order: each one at most the next, as Python compares
    strings. *)
Fixpoint in_name_order (names : list string) : bool :=
  match names with
  | a :: (b :: _) as rest => String.leb a b && in_name_order rest
  | _ => true
  end.

(** What the replacement of a set sends before the produce phase: the copy
    of an original of the set to its backup, and the DROP of an original.
    The copy of a backup over its original and the DROP of a backup are not
    among them. *)
Definition backs_up_or_drops (set : list string) (q : Stmt) : Prop :=
  ∃ t, t ∈ set ∧ (q = CopyTable t (backup_name t) ∨ q = DropTableIfExists t).

Section Notions.
Context {DB : Type} `{Database DB}.

(** [preserves I P m]: run from a state where [I] holds, [m] leaves a state
    where [I] holds and produces only events that satisfy [P]. *)
Definition preserves (I : World DB → Prop) (P : Event → Prop) {A}
    (m : M DB A) : Prop :=
  ∀ w, I w → I (final (m w)) ∧ Forall P (events (m w)).

(** [returns m]: [m] always returns; no exception and no exit leaves it. *)
Definition returns {A} (m : M DB A) : Prop :=
  ∀ w, ∃ a, outcome (m w) = Return a.

(** [no_exit m]: [m] never ends the process. *)
Definition no_exit {A} (m : M DB A) : Prop :=
  ∀ w code, outcome (m w) ≠ Exit code.

(** [exits_one m]: when [m] ends the process, the status is 1. *)
Definition exits_one {A} (m : M DB A) : Prop :=
  ∀ w code, outcome (m w) = Exit code → code = 1.

(** [sends_only Q m]: every statement [m] sends to the database satisfies
    [Q]. *)
Definition sends_only (Q : Stmt → Prop) {A} (m : M DB A) : Prop :=
  ∀ w, Forall Q (statements (events (m w))).

(** Both attributes hold a handle: the state [connect] leaves. *)
Definition connected (w : World DB) : Prop :=
  is_Some (conn w) ∧ is_Some (cur w).

(** Neither attribute holds a handle: the state [__init__] leaves. *)
Definition no_handle (w : World DB) : Prop := conn w = None ∧ cur w = None.

End Notions.

(** No read of the stream fails. *)
Definition reads_succeed (stream : list ReadResult) : bool :=
  forallb (λ r, match r with Chunk _ => true | ReadFails => false end) stream.

(** The bytes [download_loop] writes, read off the stream. *)
Fixpoint received (total_size downloaded_size : Z) (stream : list ReadResult)
    : list byte :=
  if bool_decide (downloaded_size < total_size) then
    match stream with
    | Chunk (b :: chunk) :: rest =>
        ((b :: chunk)
           ++ received total_size
                (downloaded_size + Z.of_nat (length (b :: chunk))) rest)%list
    | _ => []
    end
  else [].

(** A statement or a commit that reached the database. *)
Definition is_db_event (e : Event) : bool :=
  match e with
  | EvExecute _ _ | EvCommit _ => true
  | _ => false
  end.

(** A statement or a commit that the database refused. *)
Definition is_db_failure (e : Event) : bool :=
  match e with
  | EvExecute _ false | EvCommit false => true
  | _ => false
  end.

(** The traces of [update_db]: it starts by announcing the backup of the
    tables, and it runs the importer. *)
Definition is_update_db_event (e : Event) : bool :=
  match e with
  | EvLog _ MsgBackingUpTables | EvLog _ MsgImportStarting | EvImport _ => true
  | _ => false
  end.

(** A copy of the backup table of a layer back over the layer: what
    [restore_layers] sends. *)
Definition is_layer_restore (e : Event) : bool :=
  match e with
  | EvExecute (CopyTable orig dest) _ =>
      bool_decide (dest ∈ LAYERS.*1) && bool_decide (orig = backup_name dest)
  | _ => false
  end.

(** The tables whose backup, or whose restore, is not the restore of a
    layer. *)
Definition may_back_up (t : string) : Prop :=
  ∀ ok, is_layer_restore (EvExecute (CopyTable t (backup_name t)) ok) = false.

Definition may_restore (t : string) : Prop :=
  ∀ ok, is_layer_restore (EvExecute (CopyTable (backup_name t) t) ok) = false.

(** The exception that reading the remote size raises, if any. *)
Definition remote_size_error (h : option ContentLength) : option Exn :=
  match h with
  | None => Some RequestException
  | Some LengthMissing => Some KeyError
  | Some LengthNotAnInteger => Some ValueError
  | Some (LengthIs _) => None
  end.

(** The events of a layer statement that is executed and committed. *)
Definition layer_built (item : string * Stmt) : list Event :=
  [ EvLog INFO (MsgCreatingLayer item.1); EvExecute item.2 true;
    EvCommit true ].

(** The events of a layer statement that fails: at the statement or at its
    commit. *)
Definition layer_failed (item : string * Stmt) (evs : list Event) : Prop :=
  evs = [ EvLog INFO (MsgCreatingLayer item.1); EvExecute item.2 false;
          EvLog ERROR (MsgLayerFailed item.1 DatabaseError) ]
  ∨ evs = [ EvLog INFO (MsgCreatingLayer item.1); EvExecute item.2 true;
            EvCommit false;
            EvLog ERROR (MsgLayerFailed item.1 DatabaseError) ].

(** What the guarded replacement relies on from the database: a statement
    that succeeds does what its text says to the set of tables, a commit
    that succeeds leaves it alone, and an import that ends with 0 has
    created the tables of [TABLES_OSM] and touched no other. *)
Class LawfulDatabase (DB : Type) `{Database DB} : Prop := {
  drop_exists : ∀ t d d', db_execute (DropTableIfExists t) d = (true, d') →
    ∀ x, db_exists x d' = db_exists x d && bool_decide (x ≠ t);
  create_exists : ∀ l s d d', db_execute (CreateLayer l s) d = (true, d') →
    ∀ x, db_exists x d' = db_exists x d || bool_decide (x = l);
  commit_exists : ∀ d d', db_commit d = (true, d') →
    ∀ x, db_exists x d' = db_exists x d;
  import_exists : ∀ f d d', db_import f d = (0, d') →
    ∀ x, db_exists x d' = db_exists x d || bool_decide (x ∈ TABLES_OSM)
}.

(** A copy that succeeds has created its destination and touched no other
    table. *)
Class CopyLaw (DB : Type) `{Database DB} : Prop :=
  copy_exists : ∀ orig dest d d',
    db_execute (CopyTable orig dest) d = (true, d') →
    ∀ x, db_exists x d' = db_exists x d || bool_decide (x = dest).

(** The events of a layer that is restored from its backup. *)
Definition layer_restored (layer : string) : list Event :=
  [ EvLog INFO (MsgRestoringLayer layer);
    EvExecute (CopyTable (backup_name layer) layer) true;
    EvCommit true ].

(** ** Concrete inputs *)

Module Inputs.
Import TableDb.

Definition extract_v1 : list byte := [x01; x02; x03].
Definition extract_v2 : list byte := [x0a; x0b; x0c; x0d; x0e].

(** The server announces and serves the five bytes of the new extract. *)
Definition serves_v2 : Response :=
  {| content_length := LengthIs 5; raw := [Chunk extract_v2] |}.

(** The server announces ten bytes and the stream ends after four. *)
Definition serves_short : Response :=
  {| content_length := LengthIs 10; raw := [Chunk [x01; x02; x03; x04]] |}.

(** A database with the four OSM tables and the two layers. *)
Definition full_db : TableDb.t :=
  mk (list_to_set (TABLES_OSM ++ LAYERS.*1)) false 0.

(** The same without [planet_osm_roads]. *)
Definition no_roads_db : TableDb.t :=
  mk (list_to_set ["planet_osm_line"; "planet_osm_point";
                   "planet_osm_polygon"; "line_water"; "area_water"]) false 0.

(** The layers exist, [planet_osm_line] does not: the statement of
    [line_water] fails. *)
Definition no_line_db : TableDb.t :=
  mk (list_to_set ["planet_osm_point"; "planet_osm_polygon"; "planet_osm_roads";
                   "line_water"; "area_water"]) false 0.

(** No local extract, the server serves the new one. *)
Definition first_run : World TableDb.t :=
  world ∅ (Some (LengthIs 5)) (Some serves_v2) full_db false.

(** A local extract older than the one served. *)
Definition stale_run : World TableDb.t :=
  world {[ PBF_FILENAME := extract_v1 ]} (Some (LengthIs 5)) (Some serves_v2)
        full_db false.

(** A local extract of the size the server announces. *)
Definition fresh_run : World TableDb.t :=
  world {[ PBF_FILENAME := extract_v2 ]} (Some (LengthIs 5)) (Some serves_v2)
        full_db false.

(** A local extract, and a server that does not answer. *)
Definition offline_run : World TableDb.t :=
  world {[ PBF_FILENAME := extract_v1 ]} None None full_db false.

(** The stream ends early. *)
Definition short_download : World TableDb.t :=
  world ∅ (Some (LengthIs 10)) (Some serves_short) full_db false.

(** The state after the file backup: the old extract is the backup file.
    In the first the server serves the new extract, in the second it does
    not answer. *)
Definition after_backup : World TableDb.t :=
  world {[ PBF_BACKUP := extract_v1 ]} (Some (LengthIs 5)) (Some serves_v2)
        full_db false.

Definition after_backup_offline : World TableDb.t :=
  world {[ PBF_BACKUP := extract_v1 ]} None None full_db false.

(** A machine without the importer. *)
Definition no_importer : World TableDb.t :=
  {| files := {[ PBF_FILENAME := extract_v2 ]};
     fs_fault := λ _, None;
     remote_head := Some (LengthIs 5); remote_get := Some serves_v2;
     pg_reachable := true; osm2pgsql_installed := false;
     db := full_db; conn := Some PgConnection; cur := Some PgCursor |}.

(** A database server that cannot be reached. *)
Definition unreachable : World TableDb.t :=
  {| files := {[ PBF_FILENAME := extract_v2 ]};
     fs_fault := λ _, None;
     remote_head := Some (LengthIs 5); remote_get := Some serves_v2;
     pg_reachable := false; osm2pgsql_installed := true;
     db := full_db; conn := None; cur := None |}.

(** A download directory in which nothing may be renamed or removed,
    holding the local extract and an older backup that can be written. *)
Definition refused_move : World TableDb.t :=
  {| files := {[ PBF_FILENAME := extract_v1; PBF_BACKUP := [x00] ]};
     fs_fault := λ op, match op with
                       | OpMove | OpRemove => Some PermissionError
                       | _ => None
                       end;
     remote_head := Some (LengthIs 5); remote_get := Some serves_v2;
     pg_reachable := true; osm2pgsql_installed := true;
     db := full_db; conn := None; cur := None |}.

(** A database with the four OSM tables only. *)
Definition base_db : TableDb.t := mk (list_to_set TABLES_OSM) false 0.

(** Worlds with an open connection, as [connect] leaves them. *)
Definition with_connection (d : TableDb.t) : World TableDb.t :=
  world {[ PBF_FILENAME := extract_v2 ]} (Some (LengthIs 5)) (Some serves_v2)
        d true.

(** A connection is open, all tables exist, and the importer ends with
    return code 1. *)
Definition import_fails : World TableDb.t :=
  with_connection (mk (list_to_set (TABLES_OSM ++ LAYERS.*1)) false 1).

End Inputs.

(** * Proofs *)

Section Proofs.
Context {DB : Type} `{Database DB}.
Implicit Types (w : World DB) (e : Exn).

(** ** Running [bind] and [try_except] *)

(** Computes through the monad once the calls into the collaborators have
    been resolved. *)
Ltac msimpl :=
  cbv [mbind M_bind bind mret M_ret ret raise sys_exit logging try_except
       prepend int_content_length];
  cbn [outcome final events andb orb negb].

Lemma outcome_bind {A B} (m : M DB A) (k : A → M DB B) w :
  outcome ((m ≫= k) w) =
  match outcome (m w) with
  | Return a => outcome (k a (final (m w)))
  | Raise e => Raise e
  | Exit code => Exit code
  end.
Proof.
  unfold mbind, M_bind, bind. destruct (m w) as [[a|e|c] w' evs]; [|done..].
  cbn [outcome final events]. by destruct (k a w').
Qed.

Lemma final_bind {A B} (m : M DB A) (k : A → M DB B) w :
  final ((m ≫= k) w) =
  match outcome (m w) with
  | Return a => final (k a (final (m w)))
  | _ => final (m w)
  end.
Proof.
  unfold mbind, M_bind, bind. destruct (m w) as [[a|e|c] w' evs]; [|done..].
  cbn [outcome final events]. by destruct (k a w').
Qed.

Lemma events_bind {A B} (m : M DB A) (k : A → M DB B) w :
  events ((m ≫= k) w) =
  match outcome (m w) with
  | Return a => (events (m w) ++ events (k a (final (m w))))%list
  | _ => events (m w)
  end.
Proof.
  unfold mbind, M_bind, bind. destruct (m w) as [[a|e|c] w' evs]; [|done..].
  cbn [outcome final events]. by destruct (k a w').
Qed.

Lemma outcome_try {A} (body : M DB A) handler w :
  outcome (try_except body handler w) =
  match outcome (body w) with
  | Raise e =>
      match handler e with
      | Some h => outcome (h (final (body w)))
      | None => Raise e
      end
  | o => o
  end.
Proof.
  unfold try_except. destruct (body w) as [[a|e|c] w' evs]; try done.
  cbn [outcome final events]. destruct (handler e) as [h|]; [|done].
  by destruct (h w').
Qed.

Lemma final_try {A} (body : M DB A) handler w :
  final (try_except body handler w) =
  match outcome (body w) with
  | Raise e =>
      match handler e with
      | Some h => final (h (final (body w)))
      | None => final (body w)
      end
  | _ => final (body w)
  end.
Proof.
  unfold try_except. destruct (body w) as [[a|e|c] w' evs]; try done.
  cbn [outcome final events]. destruct (handler e) as [h|]; [|done].
  by destruct (h w').
Qed.

Lemma events_try {A} (body : M DB A) handler w :
  events (try_except body handler w) =
  match outcome (body w) with
  | Raise e =>
      match handler e with
      | Some h => (events (body w) ++ events (h (final (body w))))%list
      | None => events (body w)
      end
  | _ => events (body w)
  end.
Proof.
  unfold try_except. destruct (body w) as [[a|e|c] w' evs]; try done.
  cbn [outcome final events]. destruct (handler e) as [h|]; [|done].
  by destruct (h w').
Qed.

(** ** Invariants of the state and of the events *)

Section Preservation.
Variable I : World DB → Prop.
Variable P : Event → Prop.

(** [I] does not depend on the files or on the database; [P] may exclude the
    events of [update_db] and the restore of a layer, and, when [I] rules
    out an open handle, what goes through that handle. *)
Hypothesis I_files : ∀ f w, I w → I (set_files f w).
Hypothesis I_db : ∀ d w, I w → I (set_db d w).
Hypothesis P_log : ∀ lvl msg,
  is_update_db_event (EvLog lvl msg) = false → P (EvLog lvl msg).
Hypothesis P_execute : ∀ w q ok, I w → is_Some (cur w) →
  is_layer_restore (EvExecute q ok) = false → P (EvExecute q ok).
Hypothesis P_commit : ∀ w ok, I w → is_Some (conn w) → P (EvCommit ok).

Lemma preserves_ret {A} (a : A) : preserves I P (mret a).
Proof. by intros w Hw. Qed.

Lemma preserves_raise {A} e : preserves I P (raise (A:=A) e).
Proof. by intros w Hw. Qed.

Lemma preserves_exit {A} code : preserves I P (sys_exit (A:=A) code).
Proof. by intros w Hw. Qed.

Lemma preserves_bind {A B} (m : M DB A) (k : A → M DB B) :
  preserves I P m → (∀ a, preserves I P (k a)) → preserves I P (m ≫= k).
Proof.
  intros Hm Hk w Hw. destruct (Hm w Hw) as [HI HP].
  rewrite final_bind, events_bind.
  destruct (outcome (m w)) as [a|e|c]; try done.
  destruct (Hk a _ HI) as [HI' HP']. split; [done|].
  by apply Forall_app.
Qed.

Lemma preserves_try {A} (body : M DB A) handler :
  preserves I P body →
  (∀ e h, handler e = Some h → preserves I P h) →
  preserves I P (try_except body handler).
Proof.
  intros Hb Hh w Hw. destruct (Hb w Hw) as [HI HP].
  rewrite final_try, events_try.
  destruct (outcome (body w)) as [a|e|c]; try done.
  destruct (handler e) as [h|] eqn:E; [|done].
  destruct (Hh e h E _ HI) as [HI' HP']. split; [done|].
  by apply Forall_app.
Qed.

Lemma preserves_logging lvl msg :
  is_update_db_event (EvLog lvl msg) = false → preserves I P (logging lvl msg).
Proof.
  intros Hmsg w Hw. split; [done|]. apply Forall_singleton. by apply P_log.
Qed.

Lemma preserves_logging_update lvl msg :
  P (EvLog lvl msg) → preserves I P (logging lvl msg).
Proof. intros Hmsg w Hw. split; [done|]. by apply Forall_singleton. Qed.

Lemma preserves_os_stat_size name : preserves I P (os_stat_size name).
Proof.
  intros w Hw. unfold os_stat_size.
  destruct (files w !! name); [|done]. by destruct (fs_fault w OpStat).
Qed.

Lemma preserves_os_path_exists name : preserves I P (os_path_exists name).
Proof. by intros w Hw. Qed.

Lemma preserves_os_remove name : preserves I P (os_remove name).
Proof.
  intros w Hw. unfold os_remove.
  destruct (files w !! name); [|done].
  destruct (fs_fault w OpRemove); [done|]. split; [by apply I_files|done].
Qed.

Lemma preserves_open_wb name : preserves I P (open_wb name).
Proof.
  intros w Hw. unfold open_wb.
  destruct (fs_fault w OpOpen); [done|]. split; [by apply I_files|done].
Qed.

Lemma preserves_file_write name chunk : preserves I P (file_write name chunk).
Proof.
  intros w Hw. unfold file_write.
  destruct (fs_fault w OpWrite); [done|]. split; [by apply I_files|done].
Qed.

Lemma preserves_shutil_move src dst : preserves I P (shutil_move src dst).
Proof.
  intros w Hw. unfold shutil_move.
  destruct (files w !! src) as [data|]; [|done].
  destruct (fs_fault w OpMove) as [e|]; [|split; [by apply I_files|done]].
  destruct (is_OSError e); [|done].
  assert (preserves I P (open_wb dst;; file_write dst data;; os_remove src))
    as Hfallback; [|by apply Hfallback].
  apply preserves_bind; [apply preserves_open_wb|intros _].
  apply preserves_bind; [apply preserves_file_write|intros _].
  apply preserves_os_remove.
Qed.

Lemma preserves_requests_head : preserves I P requests_head.
Proof. intros w Hw. unfold requests_head. by destruct (remote_head w). Qed.

Lemma preserves_requests_get : preserves I P requests_get.
Proof. intros w Hw. unfold requests_get. by destruct (remote_get w). Qed.

Lemma preserves_int_content_length h : preserves I P (int_content_length h).
Proof. intros w Hw. by destruct h. Qed.

Lemma preserves_get_attr_conn : preserves I P get_attr_conn.
Proof. by intros w Hw. Qed.

Lemma preserves_cur_close : preserves I P cur_close.
Proof. intros w Hw. unfold cur_close. by destruct (cur w). Qed.

Lemma preserves_conn_close : preserves I P conn_close.
Proof. intros w Hw. unfold conn_close. by destruct (conn w). Qed.

Lemma preserves_cur_execute q :
  (∀ ok, is_layer_restore (EvExecute q ok) = false) →
  preserves I P (cur_execute q).
Proof.
  intros Hq w Hw. unfold cur_execute.
  destruct (cur w) as [c|] eqn:E; [|done].
  split; [by apply I_db|]. apply Forall_singleton.
  apply (P_execute w); [done|by rewrite E|done].
Qed.

Lemma preserves_conn_commit : preserves I P conn_commit.
Proof.
  intros w Hw. unfold conn_commit.
  destruct (conn w) as [c|] eqn:E; [|done].
  split; [by apply I_db|]. apply Forall_singleton.
  apply (P_commit w); [done|by rewrite E].
Qed.

Lemma preserves_subprocess_run extract :
  (∀ rc, P (EvImport rc)) → preserves I P (subprocess_run_osm2pgsql extract).
Proof.
  intros Himp w Hw. unfold subprocess_run_osm2pgsql.
  destruct (osm2pgsql_installed w); [|done].
  split; [by apply I_db|]. by apply Forall_singleton.
Qed.

Create HintDb pres.

Local Hint Resolve preserves_os_stat_size preserves_shutil_move
  preserves_os_path_exists preserves_os_remove preserves_open_wb
  preserves_file_write preserves_requests_head preserves_requests_get
  preserves_int_content_length preserves_get_attr_conn preserves_cur_close
  preserves_conn_close preserves_conn_commit : pres.

(** One step through the text of a method. *)
Ltac pres_step :=
  first
    [ solve [eauto with pres]
    | match goal with
      | |- preserves _ _ (mret _) => apply preserves_ret
      | |- preserves _ _ (raise _) => apply preserves_raise
      | |- preserves _ _ (sys_exit _) => apply preserves_exit
      | |- preserves _ _ (mbind _ _) => apply preserves_bind; [|intros ?]
      | |- preserves _ _ (try_except _ _) =>
          apply preserves_try;
          [|intros ? ? ?; cbv beta in *; repeat case_match; simplify_eq]
      | |- preserves _ _ (logging _ _) => apply preserves_logging; reflexivity
      | |- preserves _ _ (if ?b then _ else _) => destruct b
      | |- preserves _ _ (match ?r with _ => _ end) => destruct r
      end ].

Ltac pres := repeat pres_step.

Lemma preserves_manage_backup : preserves I P manage_backup.
Proof. unfold manage_backup, _create_file_backup. pres. Qed.

Lemma preserves_check_if_obsolete : preserves I P check_if_obsolete.
Proof. unfold check_if_obsolete. pres. Qed.

Lemma preserves_download_loop total downloaded stream :
  preserves I P (download_loop total downloaded stream).
Proof.
  revert downloaded.
  induction stream as [|[[|b chunk]|] rest IH]; intros downloaded; simpl; pres.
Qed.

Local Hint Resolve preserves_manage_backup preserves_check_if_obsolete
  preserves_download_loop : pres.

Lemma preserves_download_pbf : preserves I P download_pbf.
Proof. unfold download_pbf. pres. Qed.

Lemma preserves_restore_backup : preserves I P restore_backup.
Proof. unfold restore_backup. pres. Qed.

Lemma preserves_delete_backup : preserves I P delete_backup.
Proof. unfold delete_backup. pres. Qed.

Local Hint Resolve preserves_download_pbf preserves_restore_backup
  preserves_delete_backup : pres.

Lemma preserves_prepare_download : preserves I P prepare_download.
Proof. unfold prepare_download. pres. Qed.

Lemma preserves_prepare_update backup_is_done :
  preserves I P (prepare_update backup_is_done).
Proof. unfold prepare_update. pres. Qed.

Lemma preserves_copy_table orig dest :
  (∀ ok, is_layer_restore (EvExecute (CopyTable orig dest) ok) = false) →
  preserves I P (_copy_table orig dest).
Proof.
  intros Hq. unfold _copy_table. pres. by apply preserves_cur_execute.
Qed.

Lemma preserves_drop_tables table_list : preserves I P (drop_tables table_list).
Proof.
  induction table_list as [|table rest IH]; simpl; pres.
  by apply preserves_cur_execute.
Qed.

Lemma preserves_backup_tables_loop table_list :
  Forall may_back_up table_list →
  preserves I P (backup_tables_loop table_list).
Proof.
  induction 1 as [|table rest Ht Hrest IH]; simpl; [pres|].
  pose proof (preserves_copy_table _ _ Ht). pres.
Qed.

Lemma preserves_restore_tables table_list :
  Forall may_restore table_list →
  preserves I P (restore_tables table_list).
Proof.
  intros Hl. unfold restore_tables. pres.
  induction Hl as [|table rest Ht Hrest IH]; simpl; [pres|].
  pose proof (preserves_copy_table _ _ Ht). pres.
Qed.

Lemma preserves_backup_layers_loop layers :
  Forall may_back_up layers →
  preserves I P (backup_layers_loop layers).
Proof.
  induction 1 as [|layer rest Ht Hrest IH]; simpl; [pres|].
  pose proof (preserves_copy_table _ _ Ht). pres.
Qed.

Lemma preserves_create_layers_loop items :
  Forall (λ item, ∀ ok, is_layer_restore (EvExecute item.2 ok) = false) items →
  preserves I P (create_layers_loop items).
Proof.
  induction 1 as [|[layer query] rest Ht Hrest IH]; simpl; pres.
  by apply preserves_cur_execute.
Qed.

Lemma may_back_up_layers : Forall may_back_up (LAYERS.*1).
Proof. repeat constructor. Qed.

Lemma may_back_up_tables : Forall may_back_up TABLES_OSM.
Proof. repeat constructor. Qed.

Lemma may_restore_tables : Forall may_restore TABLES_OSM.
Proof. repeat constructor. Qed.

Lemma preserves_backup_layers : preserves I P backup_layers.
Proof.
  unfold backup_layers. pres.
  apply preserves_backup_layers_loop, may_back_up_layers.
Qed.

Local Hint Resolve preserves_prepare_download preserves_prepare_update
  preserves_drop_tables preserves_backup_layers : pres.

Lemma preserves_create_layers : preserves I P create_layers.
Proof.
  unfold create_layers. pres.
  apply preserves_create_layers_loop. repeat constructor.
Qed.

Lemma preserves_disconnect : preserves I P disconnect.
Proof. unfold disconnect. pres. Qed.

(** [update_db] needs [P] to admit its own events. *)
Lemma preserves_update_db :
  (∀ ev, is_update_db_event ev = true → P ev) →
  preserves I P update_db.
Proof.
  intros Hup.
  assert (preserves I P (backup_tables TABLES_OSM)) as Hbackup.
  { unfold backup_tables. apply preserves_bind; [|intros _].
    - apply preserves_logging_update. by apply Hup.
    - apply preserves_backup_tables_loop, may_back_up_tables. }
  assert (preserves I P update_osm_tables) as Himport.
  { unfold update_osm_tables. apply preserves_bind; [|intros _].
    - apply preserves_logging_update. by apply Hup.
    - pres. apply preserves_subprocess_run. intros rc. by apply Hup. }
  assert (preserves I P (restore_tables TABLES_OSM)) as Hrestore
    by apply preserves_restore_tables, may_restore_tables.
  pose proof preserves_disconnect.
  unfold update_db. pres.
Qed.

Local Hint Resolve preserves_create_layers : pres.

(** The first part of [run], after the freshness check. *)
Lemma preserves_file_stage (download_is_obsolete fd fu rl : bool) :
  preserves I P
    (if download_is_obsolete || fd then
       backup_is_done ← prepare_download;
       prepare_update backup_is_done;;
       mret tt
     else if negb fu && negb rl then sys_exit 0
     else mret tt).
Proof. pres. Qed.

(** Without [force_update], [run] does not go through [update_db]. *)
Lemma preserves_run_without_force_update force_download recreate_layers :
  preserves I P (run force_download false recreate_layers).
Proof. unfold run. pres. Qed.

Lemma preserves_run force_download force_update recreate_layers :
  (∀ ev, is_update_db_event ev = true → P ev) →
  preserves I P (run force_download force_update recreate_layers).
Proof.
  intros Hup. pose proof (preserves_update_db Hup).
  unfold run. pres.
Qed.

End Preservation.
(** ** The freshness check *)

Lemma os_stat_size_missing w name :
  files w !! name = None →
  os_stat_size name w = mkResult (Raise FileNotFoundError) w [].
Proof. intros Hf. unfold os_stat_size. by rewrite Hf. Qed.

Lemma os_stat_size_present w name data :
  files w !! name = Some data → fs_fault w OpStat = None →
  os_stat_size name w = mkResult (Return (Z.of_nat (length data))) w [].
Proof. intros Hf Hs. unfold os_stat_size. by rewrite Hf, Hs. Qed.

(** C5.  What [check_if_obsolete] answers: [False] when the local extract
    does not exist, and, when it exists and the server announces the size
    [n], [True] exactly when the local size differs from [n]. *)
Theorem check_if_obsolete_result w :
  (files w !! PBF_FILENAME = None →
   outcome (check_if_obsolete w) = Return false) ∧
  (∀ data n,
     files w !! PBF_FILENAME = Some data → fs_fault w OpStat = None →
     remote_head w = Some (LengthIs n) →
     outcome (check_if_obsolete w)
     = Return (bool_decide (Z.of_nat (length data) ≠ n))).
Proof.
  split.
  - intros Hf. unfold check_if_obsolete.
    rewrite outcome_try, outcome_bind, os_stat_size_missing by done.
    reflexivity.
  - intros data n Hf Hs Hh. unfold check_if_obsolete.
    rewrite outcome_try, outcome_bind, (os_stat_size_present _ _ data) by done.
    cbn [outcome final]. rewrite outcome_bind.
    unfold requests_head. rewrite Hh. msimpl.
    by repeat case_bool_decide.
Qed.

(** C10.  When the local extract exists and the remote size cannot be read
    (the request fails, the header is absent, or it is not an integer), the
    exception is not a [FileNotFoundError], and it leaves
    [check_if_obsolete] and [run] uncaught. *)
Theorem check_if_obsolete_propagates w data e :
  files w !! PBF_FILENAME = Some data → fs_fault w OpStat = None →
  remote_size_error (remote_head w) = Some e →
  is_FileNotFoundError e = false ∧
  outcome (check_if_obsolete w) = Raise e ∧
  ∀ force_download force_update recreate_layers,
    outcome (run force_download force_update recreate_layers w) = Raise e.
Proof.
  intros Hf Hs He.
  assert (is_FileNotFoundError e = false) as Hne.
  { destruct (remote_head w) as [[| |n]|]; by simplify_eq/=. }
  assert (outcome (check_if_obsolete w) = Raise e) as Hcheck.
  { unfold check_if_obsolete.
    rewrite outcome_try, outcome_bind, (os_stat_size_present _ _ data) by done.
    cbn [outcome final]. rewrite outcome_bind. unfold requests_head.
    destruct (remote_head w) as [[| |n]|]; by simplify_eq/=. }
  split; [done|]. split; [done|].
  intros fd fu rl. unfold run. by rewrite outcome_bind, Hcheck.
Qed.

(** ** Calls that cannot end the process, calls that always return *)

Lemma no_exit_ret {A} (a : A) : no_exit (DB:=DB) (mret a).
Proof. by intros w c. Qed.

Lemma no_exit_raise {A} e : no_exit (DB:=DB) (raise (A:=A) e).
Proof. by intros w c. Qed.

Lemma no_exit_bind {A B} (m : M DB A) (k : A → M DB B) :
  no_exit m → (∀ a, no_exit (k a)) → no_exit (m ≫= k).
Proof.
  intros Hm Hk w c. rewrite outcome_bind.
  destruct (outcome (m w)) as [a|e|c'] eqn:E; [apply Hk|done|].
  by destruct (Hm w c').
Qed.

Lemma no_exit_try {A} (body : M DB A) handler :
  no_exit body → (∀ e h, handler e = Some h → no_exit h) →
  no_exit (try_except body handler).
Proof.
  intros Hb Hh w c. rewrite outcome_try.
  destruct (outcome (body w)) as [a|e|c'] eqn:E; [done| |].
  - destruct (handler e) as [h|] eqn:E'; [by eapply Hh|done].
  - by destruct (Hb w c').
Qed.

Lemma no_exit_returns {A} (m : M DB A) : returns m → no_exit m.
Proof. intros Hm w c. destruct (Hm w) as [a Ha]. by rewrite Ha. Qed.

(** A [try] whose handler catches every exception and returns. *)
Lemma returns_try {A} (body : M DB A) (handler : Exn → M DB A) :
  no_exit body → (∀ e, returns (handler e)) →
  returns (try_except body (λ e, Some (handler e))).
Proof.
  intros Hb Hh w. rewrite outcome_try.
  destruct (outcome (body w)) as [a|e|c] eqn:E; [by eexists|apply Hh|].
  by destruct (Hb w c).
Qed.

Lemma returns_ret {A} (a : A) : returns (DB:=DB) (mret a).
Proof. intros w. by eexists. Qed.

Lemma returns_logging lvl msg : returns (DB:=DB) (logging lvl msg).
Proof. intros w. by eexists. Qed.

Lemma returns_bind {A B} (m : M DB A) (k : A → M DB B) :
  returns m → (∀ a, returns (k a)) → returns (m ≫= k).
Proof.
  intros Hm Hk w. rewrite outcome_bind.
  destruct (Hm w) as [a ->]. apply Hk.
Qed.

(** The calls into the collaborators return or raise. *)
Tactic Notation "no_exit_call" reference(f) :=
  let w := fresh "w" in
  let c := fresh "c" in
  intros w c; unfold f; repeat case_match; done.

Lemma no_exit_os_stat_size name : no_exit (DB:=DB) (os_stat_size name).
Proof. no_exit_call os_stat_size. Qed.
Lemma no_exit_os_remove name : no_exit (DB:=DB) (os_remove name).
Proof. no_exit_call os_remove. Qed.
Lemma no_exit_open_wb name : no_exit (DB:=DB) (open_wb name).
Proof. no_exit_call open_wb. Qed.
Lemma no_exit_file_write name chunk : no_exit (DB:=DB) (file_write name chunk).
Proof. no_exit_call file_write. Qed.
Lemma no_exit_requests_head : no_exit (DB:=DB) requests_head.
Proof. no_exit_call requests_head. Qed.
Lemma no_exit_requests_get : no_exit (DB:=DB) requests_get.
Proof. no_exit_call requests_get. Qed.
Lemma no_exit_cur_execute q : no_exit (cur_execute q).
Proof. no_exit_call cur_execute. Qed.
Lemma no_exit_conn_commit : no_exit conn_commit.
Proof. no_exit_call conn_commit. Qed.
Lemma no_exit_int_content_length h : no_exit (DB:=DB) (int_content_length h).
Proof. intros w c. by destruct h. Qed.
Lemma no_exit_subprocess_run extract :
  no_exit (subprocess_run_osm2pgsql extract).
Proof. no_exit_call subprocess_run_osm2pgsql. Qed.
Lemma no_exit_shutil_move src dst : no_exit (DB:=DB) (shutil_move src dst).
Proof.
  intros w c. unfold shutil_move.
  destruct (files w !! src) as [data|]; [|done].
  destruct (fs_fault w OpMove) as [e|]; [|done].
  destruct (is_OSError e); [|done].
  apply no_exit_bind; [apply no_exit_open_wb|intros _].
  apply no_exit_bind; [apply no_exit_file_write|intros _].
  apply no_exit_os_remove.
Qed.

Create HintDb nx.

Local Hint Resolve no_exit_os_stat_size no_exit_shutil_move no_exit_os_remove
  no_exit_open_wb no_exit_file_write no_exit_requests_head
  no_exit_requests_get no_exit_cur_execute no_exit_conn_commit
  no_exit_int_content_length no_exit_subprocess_run : nx.
Local Hint Resolve returns_ret returns_logging : nx.

Ltac nx_step :=
  first
    [ solve [eauto with nx]
    | match goal with
      | |- no_exit (mret _) => apply no_exit_ret
      | |- no_exit (raise _) => apply no_exit_raise
      | |- no_exit (logging _ _) => apply no_exit_returns, returns_logging
      | |- no_exit (os_path_exists _) => by intros ? ?
      | |- no_exit (mbind _ _) => apply no_exit_bind; [|intros ?]
      | |- no_exit (try_except _ _) =>
          apply no_exit_try;
          [|intros ? ? ?; cbv beta in *; repeat case_match; simplify_eq]
      | |- returns (mbind _ _) => apply returns_bind; [|intros ?]
      | |- returns (try_except _ (λ _, Some _)) => apply returns_try; [|intros ?]
      | |- no_exit (if ?b then _ else _) => destruct b
      | |- no_exit (match ?r with _ => _ end) => destruct r
      | |- returns (if ?b then _ else _) => destruct b
      | |- returns (match ?r with _ => _ end) => destruct r
      end ].

Ltac nx := repeat nx_step.

Lemma no_exit_download_loop total downloaded stream :
  no_exit (DB:=DB) (download_loop total downloaded stream).
Proof.
  revert downloaded.
  induction stream as [|[[|b chunk]|] rest IH]; intros downloaded; simpl; nx.
Qed.

Local Hint Resolve no_exit_download_loop : nx.

Lemma returns_download_pbf : returns (DB:=DB) download_pbf.
Proof. unfold download_pbf. nx. Qed.

Lemma returns_manage_backup_missing w :
  files w !! PBF_FILENAME = None →
  manage_backup w = mkResult (Return false) w [].
Proof.
  intros Hf. unfold manage_backup, _create_file_backup, shutil_move.
  msimpl. by rewrite Hf.
Qed.

Lemma no_exit_copy_table orig dest : no_exit (_copy_table orig dest).
Proof. unfold _copy_table. nx. Qed.

Local Hint Resolve no_exit_copy_table : nx.

Lemma returns_backup_tables_loop table_list :
  returns (backup_tables_loop table_list).
Proof. induction table_list as [|table rest IH]; simpl; nx. Qed.

Lemma returns_backup_tables table_list : returns (backup_tables table_list).
Proof.
  pose proof (returns_backup_tables_loop table_list).
  unfold backup_tables. nx.
Qed.

Lemma returns_restore_tables table_list : returns (restore_tables table_list).
Proof.
  unfold restore_tables. nx.
  induction table_list as [|table rest IH]; simpl; nx.
Qed.

Lemma returns_drop_tables table_list : returns (drop_tables table_list).
Proof. induction table_list as [|table rest IH]; simpl; nx. Qed.

Lemma returns_backup_layers : returns backup_layers.
Proof.
  unfold backup_layers. nx.
  induction (LAYERS.*1) as [|layer rest IH]; simpl; nx.
Qed.

Lemma returns_create_layers_loop items : returns (create_layers_loop items).
Proof. induction items as [|[layer query] rest IH]; simpl; nx. Qed.

(** ** The download *)

Lemma file_write_ok w name chunk :
  fs_fault w OpWrite = None →
  file_write name chunk w
  = mkResult (Return ())
      (set_files (alter (λ data, data ++ chunk)%list name (files w)) w) [].
Proof. intros Hw. unfold file_write. by rewrite Hw. Qed.

Lemma download_loop_written total downloaded stream w :
  fs_fault w OpWrite = None → reads_succeed stream = true →
  let r := download_loop total downloaded stream w in
  outcome r = Return tt ∧
  fs_fault (final r) = fs_fault w ∧
  files (final r) !! PBF_FILENAME
  = (λ data, data ++ received total downloaded stream)%list
      <$> files w !! PBF_FILENAME.
Proof.
  revert downloaded w.
  induction stream as [|[[|b chunk]|] rest IH]; intros downloaded w Hw Hs;
    simpl; case_bool_decide;
    try (cbv [mret M_ret ret]; cbn [outcome final];
         split_and!; [done..|];
         destruct (files w !! PBF_FILENAME); simpl; by rewrite ?app_nil_r).
  - rewrite outcome_bind, final_bind, !file_write_ok by done.
    cbn [outcome final].
    set (w1 := set_files _ w).
    destruct (IH (downloaded + Z.of_nat (S (length chunk))) w1)
      as (Ho & Hf & Hfiles); [done|done|].
    split_and!; [done|done|].
    rewrite Hfiles. subst w1. cbn [files set_files].
    rewrite lookup_alter_eq.
    destruct (files w !! PBF_FILENAME); simpl; [|done].
    by rewrite <-app_assoc.
Qed.

(** C4.  Whenever the file can be opened and written, the request is
    answered with an integer [Content-Length] and no read fails,
    [download_pbf] returns [True], and the file holds the bytes received up
    to the end of the stream: their number is not compared with the
    announced length. *)
Theorem download_pbf_ignores_length w resp n :
  fs_fault w OpOpen = None → fs_fault w OpWrite = None →
  remote_get w = Some resp → content_length resp = LengthIs n →
  reads_succeed (raw resp) = true →
  outcome (download_pbf w) = Return true ∧
  files (final (download_pbf w)) !! PBF_FILENAME
  = Some (received n 0 (raw resp)).
Proof.
  intros Hopen Hwrite Hget Hlen Hreads.
  set (w1 := set_files (<[PBF_FILENAME := []]> (files w)) w).
  destruct (download_loop_written n 0 (raw resp) w1)
    as (Ho & _ & Hfiles); [done|done|].
  unfold download_pbf, open_wb, requests_get. msimpl.
  rewrite Hopen. msimpl. cbn [remote_get set_files]. rewrite Hget. msimpl.
  rewrite Hlen. msimpl. fold w1.
  destruct (download_loop n 0 (raw resp) w1) as [o w2 evs].
  cbn [outcome final] in Ho, Hfiles. subst o. msimpl.
  split; [done|]. rewrite Hfiles. subst w1. cbn [files set_files].
  by rewrite lookup_insert_eq.
Qed.

(** ** A run without a local extract *)

Lemma check_if_obsolete_missing w :
  files w !! PBF_FILENAME = None →
  check_if_obsolete w
  = mkResult (Return false) w [EvLog INFO MsgMapFileNotFoundUpdateNeeded].
Proof.
  intros Hf. unfold check_if_obsolete, os_stat_size. msimpl. by rewrite Hf.
Qed.

Lemma prepare_download_missing w :
  files w !! PBF_FILENAME = None →
  prepare_download w
  = mkResult (Return false) w
      [EvLog INFO MsgCheckingMapFile;
       EvLog WARNING MsgFileBackupFailedDownloadingAnyway].
Proof.
  intros Hf.
  unfold prepare_download, manage_backup, _create_file_backup, shutil_move.
  msimpl. by rewrite Hf.
Qed.

(** Without a backup, [prepare_update] ends the process whatever the
    download gave. *)
Lemma prepare_update_without_backup w :
  outcome (prepare_update false w) = Exit 1.
Proof.
  unfold prepare_update. rewrite outcome_bind.
  destruct (returns_download_pbf w) as [b ->].
  by destruct b.
Qed.

(** C3.  When no local extract exists: a run with [force_download] ends
    with exit status 1 whatever the download gave, and a run without any
    flag exits with status 0 before it downloads anything. *)
Theorem run_without_local_extract w :
  files w !! PBF_FILENAME = None →
  (∀ force_update recreate_layers,
     outcome (run true force_update recreate_layers w) = Exit 1) ∧
  run false false false w
  = mkResult (Exit 0) w [EvLog INFO MsgMapFileNotFoundUpdateNeeded].
Proof.
  intros Hf. split.
  - intros fu rl. unfold run.
    rewrite outcome_bind, check_if_obsolete_missing by done.
    cbn [outcome final orb]. rewrite outcome_bind.
    rewrite outcome_bind, prepare_download_missing by done.
    cbn [outcome final]. rewrite outcome_bind.
    by rewrite prepare_update_without_backup.
  - unfold run. unfold mbind at 1. unfold M_bind, bind.
    rewrite check_if_obsolete_missing by done. reflexivity.
Qed.

(** ** What [run] goes through *)

Lemma outcome_bind_return {A B} (m : M DB A) (k : A → M DB B) w b :
  outcome ((m ≫= k) w) = Return b →
  ∃ a, outcome (m w) = Return a ∧ outcome (k a (final (m w))) = Return b.
Proof.
  rewrite outcome_bind. destruct (outcome (m w)) as [a|e|c]; [|done..].
  intros Hk. by exists a.
Qed.

Lemma events_backup_tables table_list w :
  events (backup_tables table_list w)
  = EvLog INFO MsgBackingUpTables :: events (backup_tables_loop table_list w).
Proof. unfold backup_tables. by rewrite events_bind. Qed.

Lemma update_db_announces w :
  ∃ rest, events (update_db w) = EvLog INFO MsgBackingUpTables :: rest.
Proof.
  unfold update_db. rewrite events_bind.
  destruct (returns_backup_tables TABLES_OSM w) as [b ->].
  rewrite events_backup_tables. by eexists.
Qed.

(** C2.  [update_db] always leaves a trace (it starts by announcing the
    backup of the tables), and a run without [force_update] never shows one:
    whatever the download gave, it goes through no step of [update_db]. *)
Theorem run_skips_update_db_without_force_update :
  (∀ w, ∃ rest, events (update_db w) = EvLog INFO MsgBackingUpTables :: rest) ∧
  (∀ w force_download recreate_layers,
     Forall (λ ev, is_update_db_event ev = false)
            (events (run force_download false recreate_layers w))).
Proof.
  split; [apply update_db_announces|].
  intros w fd rl.
  by apply (preserves_run_without_force_update (λ _, True)
              (λ ev, is_update_db_event ev = false)).
Qed.

(** C6.  Whatever happens to the layer statements, [create_layers] sends no
    copy of a backup table back over its layer. *)
Theorem create_layers_never_restores w :
  Forall (λ ev, is_layer_restore ev = false) (events (create_layers w)).
Proof.
  by apply (preserves_create_layers (λ _, True)
              (λ ev, is_layer_restore ev = false)).
Qed.

(** ** Without a connection *)

Lemma no_handle_init w : no_handle (init w).
Proof. done. Qed.

(** Every method keeps the attributes as they are when they hold no handle,
    and sends nothing to the database. *)
Section NoHandle.

Let quiet (ev : Event) : Prop := is_db_event ev = false.

Lemma quiet_execute w q ok :
  no_handle w → is_Some (cur w) →
  is_layer_restore (EvExecute q ok) = false → quiet (EvExecute q ok).
Proof. intros [_ Hc] [c Hc']. congruence. Qed.

Lemma quiet_commit w ok : no_handle w → is_Some (conn w) → quiet (EvCommit ok).
Proof. intros [Hc _] [c Hc']. congruence. Qed.

Lemma quiet_log lvl msg :
  is_update_db_event (EvLog lvl msg) = false → quiet (EvLog lvl msg).
Proof. done. Qed.

Lemma quiet_update_db ev : is_update_db_event ev = true → quiet ev.
Proof. by destruct ev. Qed.

Lemma no_handle_set_files f w : no_handle w → no_handle (set_files f w).
Proof. done. Qed.

Lemma no_handle_set_db d w : no_handle w → no_handle (set_db d w).
Proof. done. Qed.

Lemma quiet_run fd fu rl : preserves (DB:=DB) no_handle quiet (run fd fu rl).
Proof.
  apply preserves_run;
    eauto using no_handle_set_files, no_handle_set_db, quiet_log,
      quiet_execute, quiet_commit, quiet_update_db.
Qed.

Lemma quiet_check_if_obsolete : preserves (DB:=DB) no_handle quiet check_if_obsolete.
Proof.
  apply preserves_check_if_obsolete;
    eauto using no_handle_set_files, no_handle_set_db, quiet_log.
Qed.

Lemma quiet_file_stage obs fd fu rl :
  preserves (DB:=DB) no_handle quiet
    (if obs || fd then
       backup_is_done ← prepare_download;
       prepare_update backup_is_done;;
       mret tt
     else if negb fu && negb rl then sys_exit 0
     else mret tt).
Proof.
  apply preserves_file_stage;
    eauto using no_handle_set_files, no_handle_set_db, quiet_log.
Qed.

Lemma quiet_update_db_call : preserves (DB:=DB) no_handle quiet update_db.
Proof.
  apply preserves_update_db;
    eauto using no_handle_set_files, no_handle_set_db, quiet_log,
      quiet_execute, quiet_commit, quiet_update_db.
Qed.

Lemma quiet_backup_layers : preserves (DB:=DB) no_handle quiet backup_layers.
Proof.
  apply preserves_backup_layers;
    eauto using no_handle_set_files, no_handle_set_db, quiet_log,
      quiet_execute, quiet_commit.
Qed.

Lemma quiet_drop_tables l : preserves (DB:=DB) no_handle quiet (drop_tables l).
Proof.
  apply preserves_drop_tables;
    eauto using no_handle_set_files, no_handle_set_db, quiet_log,
      quiet_execute, quiet_commit.
Qed.

End NoHandle.

Lemma create_layers_loop_without_cursor w :
  cur w = None → outcome (create_layers_loop LAYERS w) = Return false.
Proof.
  intros Hc. unfold LAYERS, create_layers_loop, cur_execute. msimpl.
  by rewrite Hc.
Qed.

Lemma create_layers_without_handle w :
  no_handle w → outcome (create_layers w) = Exit 1.
Proof.
  intros Hw. unfold create_layers.
  rewrite outcome_bind. cbn [logging outcome final].
  rewrite outcome_bind.
  destruct (returns_backup_layers w) as [b Hb]. rewrite Hb.
  destruct (quiet_backup_layers w Hw) as [Hw1 _].
  set (w1 := final (backup_layers w)) in *.
  rewrite outcome_bind.
  destruct (returns_drop_tables (LAYERS.*1) w1) as [b' Hb']. rewrite Hb'.
  destruct (quiet_drop_tables (LAYERS.*1) w1 Hw1) as [[_ Hw2] _].
  rewrite outcome_bind, create_layers_loop_without_cursor by done.
  reflexivity.
Qed.

(** [update_db] returns [True] or does not return. *)
Lemma update_db_never_returns_false w : outcome (update_db w) ≠ Return false.
Proof.
  intros Hret. unfold update_db in Hret.
  apply outcome_bind_return in Hret as (bd & _ & Hret).
  apply outcome_bind_return in Hret as (? & _ & Hret).
  apply outcome_bind_return in Hret as (uc & _ & Hret).
  apply outcome_bind_return in Hret as ([] & Hmid & Hret).
  apply outcome_bind_return in Hret as ([] & _ & Hret).
  assert (uc = false) as -> by (by injection Hret).
  cbn [andb negb] in Hmid.
  apply outcome_bind_return in Hmid as ([] & _ & Hmid).
  apply outcome_bind_return in Hmid as ([] & _ & Hmid).
  apply outcome_bind_return in Hmid as ([] & _ & Hmid).
  done.
Qed.

(** Without a cursor, [update_db] is the importer alone. *)
Lemma update_db_without_handle w :
  no_handle w →
  outcome (update_db w)
  = if osm2pgsql_installed w then
      if bool_decide ((db_import (files w !! PBF_FILENAME) (db w)).1 = 0)
      then Return true else Exit 1
    else Raise FileNotFoundError.
Proof.
  intros [Hconn Hcur].
  unfold update_db, backup_tables, TABLES_OSM, backup_tables_loop, drop_tables,
    _copy_table, cur_execute, update_osm_tables, subprocess_run_osm2pgsql,
    disconnect, get_attr_conn.
  msimpl. repeat (rewrite Hcur; msimpl).
  destruct (osm2pgsql_installed w); [|done]. msimpl.
  repeat case_bool_decide; try done;
    repeat first [progress msimpl | rewrite Hconn | progress cbn [conn set_db]];
    done.
Qed.

(** C9 (amended).  On a fresh object, [run] leaves both attributes at
    [None] and sends nothing to the database: every operation on the cursor
    raises and the handler around it catches the exception.  [update_db]
    then returns [True] exactly when the importer ends with 0, and
    [create_layers] always ends the process with status 1; so a run with
    [force_update] or [recreate_layers] never returns normally. *)
Theorem run_without_connection w force_download force_update recreate_layers :
  let r := run force_download force_update recreate_layers (init w) in
  no_handle (final r) ∧
  Forall (λ ev, is_db_event ev = false) (events r) ∧
  outcome (update_db (init w))
  = (if osm2pgsql_installed w then
       if bool_decide ((db_import (files w !! PBF_FILENAME) (db w)).1 = 0)
       then Return true else Exit 1
     else Raise FileNotFoundError) ∧
  outcome (create_layers (init w)) = Exit 1 ∧
  (force_update || recreate_layers = true → ∀ a, outcome r ≠ Return a).
Proof.
  intros r. subst r.
  destruct (quiet_run force_download force_update recreate_layers (init w))
    as [Hfinal Hevents]; [apply no_handle_init|].
  split_and!; [done|done| | |].
  - by rewrite update_db_without_handle.
  - by apply create_layers_without_handle.
  - intros Hflags a Hret. unfold run in Hret.
    apply outcome_bind_return in Hret as (obs & _ & Hret).
    destruct (quiet_check_if_obsolete (init w)) as [Hw1 _];
      [apply no_handle_init|].
    set (w1 := final (check_if_obsolete (init w))) in *.
    apply outcome_bind_return in Hret as ([] & _ & Hret).
    destruct (quiet_file_stage obs force_download force_update recreate_layers
                w1 Hw1) as [Hw2 _].
    match type of Hw2 with no_handle (final ?t) => set (w2 := final t) in * end.
    apply outcome_bind_return in Hret as (db_updated & Hup & Hret).
    cbn [orb] in Hup.
    destruct force_update.
    + destruct db_updated; [|by apply update_db_never_returns_false in Hup].
      destruct (quiet_update_db_call w2 Hw2) as [Hw3 _].
      cbn [orb] in Hret. by rewrite create_layers_without_handle in Hret.
    + cbn [orb] in Hflags. subst recreate_layers.
      injection Hup as <-. cbn [orb mret M_ret ret final] in Hret.
      by rewrite create_layers_without_handle in Hret.
Qed.

(** ** The layer statements *)

Lemma create_layers_loop_step layer query rest w :
  is_Some (conn w) → is_Some (cur w) →
  create_layers_loop ((layer, query) :: rest) w
  = let r1 := db_execute query (db w) in
    let r2 := db_commit r1.2 in
    if r1.1 then
      if r2.1 then
        prepend (layer_built (layer, query))
          (create_layers_loop rest (set_db r2.2 (set_db r1.2 w)))
      else
        mkResult (Return false) (set_db r2.2 (set_db r1.2 w))
          [ EvLog INFO (MsgCreatingLayer layer); EvExecute query true;
            EvCommit false; EvLog ERROR (MsgLayerFailed layer DatabaseError) ]
    else
      mkResult (Return false) (set_db r1.2 w)
        [ EvLog INFO (MsgCreatingLayer layer); EvExecute query false;
          EvLog ERROR (MsgLayerFailed layer DatabaseError) ].
Proof.
  intros [k Hk] [c Hc]. simpl. unfold cur_execute, conn_commit. msimpl.
  rewrite Hc. msimpl.
  destruct (db_execute query (db w)) as [[] d1]; cbn [fst snd]; msimpl; [|done].
  cbn [conn db set_db]. rewrite Hk. msimpl.
  destruct (db_commit d1) as [[] d2]; cbn [fst snd]; msimpl; [|done].
  by destruct (create_layers_loop rest _).
Qed.

Lemma create_layers_loop_events items w :
  is_Some (conn w) → is_Some (cur w) →
  ∃ n tail,
    events (create_layers_loop items w)
    = (concat (layer_built <$> take n items) ++ tail)%list ∧
    ((n = length items ∧ tail = [] ∧
      outcome (create_layers_loop items w) = Return true) ∨
     (∃ item, items !! n = Some item ∧ layer_failed item tail ∧
      outcome (create_layers_loop items w) = Return false)).
Proof.
  revert w. induction items as [|[layer query] rest IH]; intros w Hk Hc.
  - exists 0%nat, []. split; [done|]. by left.
  - rewrite create_layers_loop_step by done.
    destruct (db_execute query (db w)) as [[] d1]; cbn [fst snd].
    + destruct (db_commit d1) as [[] d2]; cbn [fst snd].
      * destruct (IH (set_db d2 (set_db d1 w))) as (n & tail & Hev & Hout);
          [done|done|].
        destruct (create_layers_loop rest _) as [o w' evs].
        exists (S n), tail. cbn [prepend outcome events] in *. split.
        { rewrite Hev. cbn [take fmap list_fmap concat]. by rewrite <-app_assoc. }
        destruct Hout as [(-> & -> & Ho)|(item & Hi & Ht & Ho)].
        -- by left.
        -- right. by exists item.
      * exists 0%nat. eexists. split; [done|]. right.
        exists (layer, query). split_and!; [done| |done]. by right.
    + exists 0%nat. eexists. split; [done|]. right.
      exists (layer, query). split_and!; [done| |done]. by left.
Qed.

(** ** After a failed backup *)

Lemma events_bind_prefix {A B} (m : M DB A) (k : A → M DB B) w :
  ∃ rest, events ((m ≫= k) w) = (events (m w) ++ rest)%list.
Proof.
  rewrite events_bind. destruct (outcome (m w)); [by eexists|..];
    exists []; by rewrite app_nil_r.
Qed.

Lemma events_try_prefix {A} (body : M DB A) handler w :
  ∃ rest, events (try_except body handler w) = (events (body w) ++ rest)%list.
Proof.
  rewrite events_try. destruct (outcome (body w)) as [a|e|c];
    [exists []; by rewrite app_nil_r| |exists []; by rewrite app_nil_r].
  destruct (handler e); [by eexists|exists []; by rewrite app_nil_r].
Qed.

(** With a cursor, [drop_tables] starts by sending the DROP of the first
    table of its list. *)
Lemma drop_tables_first table rest w :
  is_Some (cur w) →
  ∃ ok evs,
    events (drop_tables (table :: rest) w)
    = EvExecute (DropTableIfExists table) ok :: evs.
Proof.
  intros [c Hc]. simpl.
  destruct (events_bind_prefix
              (try_except
                 (cur_execute (DropTableIfExists table);; conn_commit;;
                  mret None)
                 (λ err, Some (logging WARNING (MsgDropTableFailed table err);;
                               mret (Some false))))
              (λ r : option bool,
                 match r with
                 | Some v => mret v
                 | None => drop_tables rest
                 end) w) as [r1 ->].
  destruct (events_try_prefix
              (cur_execute (DropTableIfExists table);; conn_commit;;
               mret (None : option bool))
              (λ err, Some (logging WARNING (MsgDropTableFailed table err);;
                            mret (Some false))) w) as [r2 ->].
  destruct (events_bind_prefix (cur_execute (DropTableIfExists table))
              (λ _, conn_commit;; mret (None : option bool)) w) as [r3 ->].
  unfold cur_execute. rewrite Hc. cbn [events]. by eexists _, _.
Qed.

Lemma events_update_osm_tables w :
  ∃ rest, events (update_osm_tables w) = EvLog INFO MsgImportStarting :: rest.
Proof. unfold update_osm_tables. rewrite events_bind. by eexists. Qed.

Lemma events_create_layers_loop_first layer query rest w :
  ∃ evs,
    events (create_layers_loop ((layer, query) :: rest) w)
    = EvLog INFO (MsgCreatingLayer layer) :: evs.
Proof.
  simpl.
  match goal with |- ∃ _, events ((?m ≫= ?k) w) = _ =>
    destruct (events_bind_prefix m k w) as [r1 ->] end.
  match goal with |- ∃ _, (events (try_except ?b ?h w) ++ _)%list = _ =>
    destruct (events_try_prefix b h w) as [r2 ->] end.
  rewrite events_bind. by eexists.
Qed.

Lemma events_create_layers_loop_layers w :
  ∃ evs,
    events (create_layers_loop LAYERS w)
    = EvLog INFO (MsgCreatingLayer "line_water") :: evs.
Proof. apply events_create_layers_loop_first. Qed.

(** The calls before the drop leave the cursor where it is. *)
Lemma cursor_kept_backup_tables w :
  is_Some (cur w) → is_Some (cur (final (backup_tables TABLES_OSM w))).
Proof.
  intros Hc.
  assert (preserves (DB:=DB) (λ w, is_Some (cur w)) (λ _, True)
            (backup_tables TABLES_OSM)) as Hp; [|by apply Hp].
  unfold backup_tables. apply preserves_bind; [|intros _].
  - by apply preserves_logging_update.
  - by apply preserves_backup_tables_loop, may_back_up_tables.
Qed.

Lemma cursor_kept_backup_layers w :
  is_Some (cur w) → is_Some (cur (final (backup_layers w))).
Proof.
  intros Hc.
  assert (preserves (DB:=DB) (λ w, is_Some (cur w)) (λ _, True)
            backup_layers) as Hp; [|by apply Hp].
  by apply preserves_backup_layers.
Qed.

(** When the backup phase of a set fails, the call does not stop there:
    right after the backup it runs [drop_tables] on the originals of the
    set, which with a cursor open starts by sending the DROP of the first
    original, and then it starts the produce phase (the importer is
    announced in [update_db], the first layer in [create_layers]). *)
Lemma failed_backup_goes_on w :
  is_Some (cur w) →
  (outcome (backup_tables TABLES_OSM w) = Return false →
   let w1 := final (backup_tables TABLES_OSM w) in
   ∃ ok rest1 rest2,
     events (drop_tables TABLES_OSM w1)
     = EvExecute (DropTableIfExists "planet_osm_line") ok :: rest1 ∧
     events (update_db w)
     = (events (backup_tables TABLES_OSM w)
        ++ events (drop_tables TABLES_OSM w1)
        ++ EvLog INFO MsgImportStarting :: rest2)%list) ∧
  (outcome (backup_layers w) = Return false →
   let w1 := final (backup_layers w) in
   ∃ ok rest1 rest2,
     events (drop_tables (LAYERS.*1) w1)
     = EvExecute (DropTableIfExists "line_water") ok :: rest1 ∧
     events (create_layers w)
     = (EvLog INFO MsgCreatingLayers :: events (backup_layers w)
        ++ events (drop_tables (LAYERS.*1) w1)
        ++ EvLog INFO (MsgCreatingLayer "line_water") :: rest2)%list).
Proof.
  intros Hc. split.
  - intros Hb w1.
    destruct (drop_tables_first "planet_osm_line"
                ["planet_osm_point"; "planet_osm_polygon"; "planet_osm_roads"]
                w1) as (ok & rest1 & Hdrop);
      [by apply cursor_kept_backup_tables|].
    exists ok, rest1. unfold update_db.
    rewrite events_bind, Hb. fold w1. rewrite events_bind.
    destruct (returns_drop_tables TABLES_OSM w1) as [b' Hb']. rewrite Hb'.
    match goal with |- context [events ((?m ≫= ?k) ?w2)] =>
      destruct (events_bind_prefix m k w2) as [r ->];
      destruct (events_update_osm_tables w2) as [r' ->] end.
    eexists. split; [exact Hdrop|]. by rewrite <-app_comm_cons.
  - intros Hb w1.
    destruct (drop_tables_first "line_water" ["area_water"] w1)
      as (ok & rest1 & Hdrop); [by apply cursor_kept_backup_layers|].
    exists ok, rest1. unfold create_layers.
    rewrite events_bind. cbn [logging outcome final events].
    rewrite events_bind, Hb. fold w1. rewrite events_bind.
    destruct (returns_drop_tables (LAYERS.*1) w1) as [b' Hb']. rewrite Hb'.
    match goal with |- context [events ((?m ≫= ?k) ?w2)] =>
      destruct (events_bind_prefix m k w2) as [r ->];
      destruct (events_create_layers_loop_layers w2) as [r' ->] end.
    eexists. split; [exact Hdrop|]. by rewrite <-app_comm_cons.
Qed.

(** ** Calls in which the database refuses nothing *)

Lemma outcome_prepend {A} evs (r : Result DB A) :
  outcome (prepend evs r) = outcome r.
Proof. by destruct r. Qed.

Lemma final_prepend {A} evs (r : Result DB A) :
  final (prepend evs r) = final r.
Proof. by destruct r. Qed.

Lemma events_prepend {A} evs (r : Result DB A) :
  events (prepend evs r) = (evs ++ events r)%list.
Proof. by destruct r. Qed.

Lemma bind_return_eq {A B} (m : M DB A) (k : A → M DB B) w a :
  outcome (m w) = Return a →
  (m ≫= k) w = prepend (events (m w)) (k a (final (m w))).
Proof.
  unfold mbind, M_bind, bind. destruct (m w) as [[a'|e|c] w' evs]; [|done..].
  by intros [= ->].
Qed.

(** One turn of a loop that sends a statement and commits. *)
Ltac loop_step Hk Hc :=
  simpl; unfold _copy_table, cur_execute, conn_commit; msimpl;
  rewrite Hc; msimpl;
  match goal with |- context [db_execute ?q ?d] =>
    destruct (db_execute q d) as [[] ?d1]; cbn [fst snd]; msimpl; [|done] end;
  cbn [conn db set_db]; rewrite Hk; msimpl;
  match goal with |- context [db_commit ?d] =>
    destruct (db_commit d) as [[] ?d2]; cbn [fst snd]; msimpl; [|done] end;
  match goal with |- context [match ?r with mkResult _ _ _ => _ end] =>
    by destruct r end.

Lemma backup_tables_loop_step table rest w :
  connected w →
  backup_tables_loop (table :: rest) w
  = let r1 := db_execute (CopyTable table (backup_name table)) (db w) in
    let r2 := db_commit r1.2 in
    if r1.1 then
      if r2.1 then
        prepend [ EvLog INFO (MsgBackingUpTable table);
                  EvExecute (CopyTable table (backup_name table)) true;
                  EvCommit true ]
          (backup_tables_loop rest (set_db r2.2 (set_db r1.2 w)))
      else
        mkResult (Return false) (set_db r2.2 (set_db r1.2 w))
          [ EvLog INFO (MsgBackingUpTable table);
            EvExecute (CopyTable table (backup_name table)) true;
            EvCommit false;
            EvLog WARNING (MsgTableBackupFailed table DatabaseError) ]
    else
      mkResult (Return false) (set_db r1.2 w)
        [ EvLog INFO (MsgBackingUpTable table);
          EvExecute (CopyTable table (backup_name table)) false;
          EvLog WARNING (MsgTableBackupFailed table DatabaseError) ].
Proof. intros [[k Hk] [c Hc]]. loop_step Hk Hc. Qed.

Lemma backup_layers_loop_step layer rest w :
  connected w →
  backup_layers_loop (layer :: rest) w
  = let r1 := db_execute (CopyTable layer (backup_name layer)) (db w) in
    let r2 := db_commit r1.2 in
    if r1.1 then
      if r2.1 then
        prepend [ EvLog INFO (MsgBackingUpLayer layer);
                  EvExecute (CopyTable layer (backup_name layer)) true;
                  EvCommit true ]
          (backup_layers_loop rest (set_db r2.2 (set_db r1.2 w)))
      else
        mkResult (Return false) (set_db r2.2 (set_db r1.2 w))
          [ EvLog INFO (MsgBackingUpLayer layer);
            EvExecute (CopyTable layer (backup_name layer)) true;
            EvCommit false;
            EvLog WARNING (MsgLayerBackupFailed layer DatabaseError) ]
    else
      mkResult (Return false) (set_db r1.2 w)
        [ EvLog INFO (MsgBackingUpLayer layer);
          EvExecute (CopyTable layer (backup_name layer)) false;
          EvLog WARNING (MsgLayerBackupFailed layer DatabaseError) ].
Proof. intros [[k Hk] [c Hc]]. loop_step Hk Hc. Qed.

Lemma drop_tables_step table rest w :
  connected w →
  drop_tables (table :: rest) w
  = let r1 := db_execute (DropTableIfExists table) (db w) in
    let r2 := db_commit r1.2 in
    if r1.1 then
      if r2.1 then
        prepend [ EvExecute (DropTableIfExists table) true; EvCommit true ]
          (drop_tables rest (set_db r2.2 (set_db r1.2 w)))
      else
        mkResult (Return false) (set_db r2.2 (set_db r1.2 w))
          [ EvExecute (DropTableIfExists table) true; EvCommit false;
            EvLog WARNING (MsgDropTableFailed table DatabaseError) ]
    else
      mkResult (Return false) (set_db r1.2 w)
        [ EvExecute (DropTableIfExists table) false;
          EvLog WARNING (MsgDropTableFailed table DatabaseError) ].
Proof. intros [[k Hk] [c Hc]]. loop_step Hk Hc. Qed.

Section Lawful.
Context `{!LawfulDatabase DB}.

Let clean (ev : Event) : Prop := is_db_failure ev = false.

(** A refused statement or commit among the events contradicts [clean]. *)
Ltac dirty H :=
  exfalso; repeat (apply Forall_cons in H as [? H]); done.

Lemma connected_set_db d w : connected w → connected (set_db d w).
Proof. done. Qed.

Lemma backup_tables_loop_clean table_list w :
  connected w → Forall clean (events (backup_tables_loop table_list w)) →
  outcome (backup_tables_loop table_list w) = Return true ∧
  connected (final (backup_tables_loop table_list w)).
Proof.
  revert w. induction table_list as [|table rest IH]; intros w Hw Hcl; [done|].
  rewrite backup_tables_loop_step in * by done.
  destruct (db_execute _ (db w)) as [[] d1]; cbn [fst snd] in *;
    [|dirty Hcl].
  destruct (db_commit d1) as [[] d2]; cbn [fst snd] in *; [|dirty Hcl].
  rewrite outcome_prepend, final_prepend. rewrite events_prepend in Hcl.
  apply Forall_app in Hcl as [_ Hcl]. by apply IH.
Qed.

Lemma backup_layers_loop_clean layers w :
  connected w → Forall clean (events (backup_layers_loop layers w)) →
  outcome (backup_layers_loop layers w) = Return true ∧
  connected (final (backup_layers_loop layers w)).
Proof.
  revert w. induction layers as [|layer rest IH]; intros w Hw Hcl; [done|].
  rewrite backup_layers_loop_step in * by done.
  destruct (db_execute _ (db w)) as [[] d1]; cbn [fst snd] in *;
    [|dirty Hcl].
  destruct (db_commit d1) as [[] d2]; cbn [fst snd] in *; [|dirty Hcl].
  rewrite outcome_prepend, final_prepend. rewrite events_prepend in Hcl.
  apply Forall_app in Hcl as [_ Hcl]. by apply IH.
Qed.

(** A clean [drop_tables] removes the tables of its list and no other. *)
Lemma drop_tables_clean table_list w :
  connected w → Forall clean (events (drop_tables table_list w)) →
  outcome (drop_tables table_list w) = Return true ∧
  connected (final (drop_tables table_list w)) ∧
  ∀ x, db_exists x (db (final (drop_tables table_list w)))
       = db_exists x (db w) && bool_decide (x ∉ table_list).
Proof.
  revert w. induction table_list as [|table rest IH]; intros w Hw Hcl.
  - split_and!; [done|done|]. intros x. cbn.
    rewrite bool_decide_true by apply not_elem_of_nil. by rewrite andb_true_r.
  - rewrite drop_tables_step in * by done.
    destruct (db_execute _ (db w)) as [[] d1] eqn:E1; cbn [fst snd] in *;
      [|dirty Hcl].
    destruct (db_commit d1) as [[] d2] eqn:E2; cbn [fst snd] in *;
      [|dirty Hcl].
    rewrite outcome_prepend, final_prepend. rewrite events_prepend in Hcl.
    apply Forall_app in Hcl as [_ Hcl].
    destruct (IH (set_db d2 (set_db d1 w))) as (Ho & Hc & Hx); [done|done|].
    split_and!; [done|done|]. intros x. rewrite Hx. cbn [db set_db].
    rewrite (commit_exists _ _ E2), (drop_exists _ _ _ E1).
    rewrite <-andb_assoc. f_equal.
    rewrite <-bool_decide_and. apply bool_decide_ext.
    by rewrite not_elem_of_cons.
Qed.

(** A clean loop of [create_layers] creates the layers of its list, when
    each statement is the one that builds the layer it is listed under. *)
Lemma create_layers_loop_clean items w :
  Forall (λ item, ∃ source, item.2 = CreateLayer item.1 source) items →
  connected w → Forall clean (events (create_layers_loop items w)) →
  outcome (create_layers_loop items w) = Return true ∧
  connected (final (create_layers_loop items w)) ∧
  ∀ x, db_exists x (db (final (create_layers_loop items w)))
       = db_exists x (db w) || bool_decide (x ∈ items.*1).
Proof.
  intros Hitems. revert w.
  induction Hitems as [|[layer query] rest [source Hq] _ IH]; intros w Hw Hcl.
  - split_and!; [done|done|]. intros x. cbn.
    rewrite bool_decide_false by apply not_elem_of_nil. by rewrite orb_false_r.
  - cbn in Hq. subst query. destruct Hw as [Hk Hc].
    rewrite create_layers_loop_step in * by done.
    destruct (db_execute _ (db w)) as [[] d1] eqn:E1; cbn [fst snd] in *;
      [|dirty Hcl].
    destruct (db_commit d1) as [[] d2] eqn:E2; cbn [fst snd] in *;
      [|dirty Hcl].
    rewrite outcome_prepend, final_prepend. rewrite events_prepend in Hcl.
    apply Forall_app in Hcl as [_ Hcl].
    destruct (IH (set_db d2 (set_db d1 w))) as (Ho & Hc' & Hx); [done|done|].
    split_and!; [done|done|]. intros x. rewrite Hx. cbn [db set_db].
    rewrite (commit_exists _ _ E2), (create_exists _ _ _ _ E1).
    rewrite <-orb_assoc. f_equal. cbn [fmap list_fmap fst].
    rewrite <-bool_decide_or. apply bool_decide_ext.
    by rewrite elem_of_cons.
Qed.

(** [update_osm_tables] returns [True] only after an import that ended
    with 0. *)
Lemma update_osm_tables_true w :
  outcome (update_osm_tables w) = Return true →
  ∃ d', db_import (files w !! PBF_FILENAME) (db w) = (0, d') ∧
        final (update_osm_tables w) = set_db d' w.
Proof.
  unfold update_osm_tables, subprocess_run_osm2pgsql. msimpl.
  destruct (osm2pgsql_installed w); msimpl; [|done].
  destruct (db_import _ (db w)) as [rc d'] eqn:E. cbn [fst snd].
  case_bool_decide as Hrc; msimpl; [done|]. intros _.
  exists d'. split; [|done]. f_equal. by destruct (decide (rc = 0)).
Qed.

Lemma backup_tables_clean table_list w :
  connected w → Forall clean (events (backup_tables table_list w)) →
  outcome (backup_tables table_list w) = Return true ∧
  connected (final (backup_tables table_list w)).
Proof.
  intros Hw Hcl. unfold backup_tables in *.
  rewrite (bind_return_eq _ _ w ()) in * by done.
  rewrite outcome_prepend, final_prepend. rewrite events_prepend in Hcl.
  apply Forall_app in Hcl as [_ Hcl]. by apply backup_tables_loop_clean.
Qed.

Lemma backup_layers_clean w :
  connected w → Forall clean (events (backup_layers w)) →
  outcome (backup_layers w) = Return true ∧ connected (final (backup_layers w)).
Proof.
  intros Hw Hcl. unfold backup_layers in *.
  rewrite (bind_return_eq _ _ w ()) in * by done.
  rewrite outcome_prepend, final_prepend. rewrite events_prepend in Hcl.
  apply Forall_app in Hcl as [_ Hcl]. by apply backup_layers_loop_clean.
Qed.

(** The names of the backups are not names of originals. *)
Lemma tables_are_not_backups t :
  t ∈ TABLES_OSM →
  bool_decide (t ∈ TABLES_OSM) = true ∧
  bool_decide (t ∉ backup_name <$> TABLES_OSM) = true ∧
  bool_decide (backup_name t ∉ backup_name <$> TABLES_OSM) = false.
Proof.
  intros Ht. unfold TABLES_OSM in Ht.
  repeat (apply elem_of_cons in Ht as [->|Ht]); [by vm_compute..|].
  by apply elem_of_nil in Ht.
Qed.

Lemma layers_are_not_backups l :
  l ∈ LAYERS.*1 →
  bool_decide (l ∈ LAYERS.*1) = true ∧
  bool_decide (l ∉ backup_name <$> LAYERS.*1) = true ∧
  bool_decide (backup_name l ∉ backup_name <$> LAYERS.*1) = false.
Proof.
  intros Hl. cbn in Hl.
  repeat (apply elem_of_cons in Hl as [->|Hl]); [by vm_compute..|].
  by apply elem_of_nil in Hl.
Qed.

(** With a connection open and a database that does what the statements
    say: when [update_db] or [create_layers] returns control after a call
    in which the database refused no statement and no commit, every
    original of the set exists and none of its backup tables does. *)
Lemma clean_replacement w :
  connected w →
  (∀ b, outcome (update_db w) = Return b →
        Forall (λ ev, is_db_failure ev = false) (events (update_db w)) →
        ∀ t, t ∈ TABLES_OSM →
          db_exists t (db (final (update_db w))) = true ∧
          db_exists (backup_name t) (db (final (update_db w))) = false) ∧
  (outcome (create_layers w) = Return () →
   Forall (λ ev, is_db_failure ev = false) (events (create_layers w)) →
   ∀ l, l ∈ LAYERS.*1 →
     db_exists l (db (final (create_layers w))) = true ∧
     db_exists (backup_name l) (db (final (create_layers w))) = false).
Proof.
  intros Hw. split.
  - intros b Hret Hcl t Ht. unfold update_db in *.
    (* the backup *)
    destruct (returns_backup_tables TABLES_OSM w) as [bd Hbd].
    rewrite (bind_return_eq _ _ w bd Hbd) in *.
    rewrite outcome_prepend in Hret. rewrite events_prepend in Hcl.
    rewrite final_prepend. apply Forall_app in Hcl as [Hcl1 Hcl].
    destruct (backup_tables_clean TABLES_OSM w Hw Hcl1) as [Hbd' Hw1].
    assert (bd = true) as -> by congruence.
    set (w1 := final (backup_tables TABLES_OSM w)) in *.
    (* the drop of the originals *)
    destruct (returns_drop_tables TABLES_OSM w1) as [b1 Hb1].
    rewrite (bind_return_eq _ _ w1 b1 Hb1) in *.
    rewrite outcome_prepend in Hret. rewrite events_prepend in Hcl.
    rewrite final_prepend. apply Forall_app in Hcl as [Hcl2 Hcl].
    destruct (drop_tables_clean TABLES_OSM w1 Hw1 Hcl2) as (_ & Hw2 & _).
    set (w2 := final (drop_tables TABLES_OSM w1)) in *.
    (* the import *)
    pose proof Hret as Hret'.
    apply outcome_bind_return in Hret' as (uc & Huc & Hret').
    rewrite (bind_return_eq _ _ w2 uc Huc) in *.
    rewrite outcome_prepend in Hret. rewrite events_prepend in Hcl.
    rewrite final_prepend. apply Forall_app in Hcl as [_ Hcl].
    destruct uc.
    2:{ cbn [andb negb] in Hret.
        apply outcome_bind_return in Hret as ([] & Hmid & _).
        apply outcome_bind_return in Hmid as ([] & _ & Hmid).
        apply outcome_bind_return in Hmid as ([] & _ & Hmid).
        apply outcome_bind_return in Hmid as ([] & _ & Hmid). done. }
    destruct (update_osm_tables_true w2 Huc) as (d3 & Himp & Hfin).
    rewrite Hfin in *. set (w3 := set_db d3 w2) in *.
    assert (connected w3) as Hw3 by done.
    cbn [andb] in *.
    (* the drop of the backups *)
    destruct (returns_drop_tables (backup_name <$> TABLES_OSM) w3) as [b4 Hb4].
    rewrite (bind_return_eq _ _ w3 ()) in *
      by (by rewrite (bind_return_eq _ _ w3 b4 Hb4), outcome_prepend).
    rewrite (bind_return_eq _ _ w3 b4 Hb4) in *.
    rewrite ?final_prepend, ?events_prepend in *.
    apply Forall_app in Hcl as [Hcl4 _]. apply Forall_app in Hcl4 as [Hcl4 _].
    destruct (drop_tables_clean _ w3 Hw3 Hcl4) as (_ & _ & Hx).
    msimpl. rewrite !Hx. subst w3. cbn [db set_db].
    rewrite !(import_exists _ _ _ Himp).
    destruct (tables_are_not_backups t Ht) as (-> & -> & ->).
    by rewrite orb_true_r, andb_false_r.
  - intros Hret Hcl l Hl. unfold create_layers in *.
    rewrite (bind_return_eq _ _ w ()) in * by done.
    rewrite outcome_prepend in Hret. rewrite events_prepend in Hcl.
    rewrite final_prepend. apply Forall_app in Hcl as [_ Hcl].
    cbn [logging final] in *.
    (* the backup *)
    destruct (returns_backup_layers w) as [bd Hbd].
    rewrite (bind_return_eq _ _ w bd Hbd) in *.
    rewrite outcome_prepend in Hret. rewrite events_prepend in Hcl.
    rewrite final_prepend. apply Forall_app in Hcl as [Hcl1 Hcl].
    destruct (backup_layers_clean w Hw Hcl1) as [Hbd' Hw1].
    assert (bd = true) as -> by congruence.
    set (w1 := final (backup_layers w)) in *.
    (* the drop of the layers *)
    destruct (returns_drop_tables (LAYERS.*1) w1) as [b1 Hb1].
    rewrite (bind_return_eq _ _ w1 b1 Hb1) in *.
    rewrite outcome_prepend in Hret. rewrite events_prepend in Hcl.
    rewrite final_prepend. apply Forall_app in Hcl as [Hcl2 Hcl].
    destruct (drop_tables_clean (LAYERS.*1) w1 Hw1 Hcl2) as (_ & Hw2 & _).
    set (w2 := final (drop_tables (LAYERS.*1) w1)) in *.
    (* the statements of the layers *)
    destruct (returns_create_layers_loop LAYERS w2) as [lc Hlc].
    rewrite (bind_return_eq _ _ w2 lc Hlc) in *.
    rewrite outcome_prepend in Hret. rewrite events_prepend in Hcl.
    rewrite final_prepend. apply Forall_app in Hcl as [Hcl3 Hcl].
    destruct (create_layers_loop_clean LAYERS w2) as (Hlc' & Hw3 & Hx3);
      [repeat constructor; by eexists|done|done|].
    assert (lc = true) as -> by congruence.
    set (w3 := final (create_layers_loop LAYERS w2)) in *.
    cbn [negb] in *.
    rewrite (bind_return_eq _ _ w3 ()) in * by done.
    rewrite final_prepend. rewrite events_prepend in Hcl.
    apply Forall_app in Hcl as [_ Hcl].
    cbn [mret M_ret ret final] in *.
    (* the drop of the backups *)
    destruct (returns_drop_tables (backup_name <$> LAYERS.*1) w3) as [b4 Hb4].
    rewrite (bind_return_eq _ _ w3 ()) in *
      by (by rewrite (bind_return_eq _ _ w3 b4 Hb4), outcome_prepend).
    rewrite (bind_return_eq _ _ w3 b4 Hb4) in *.
    rewrite ?final_prepend, ?events_prepend in *.
    apply Forall_app in Hcl as [Hcl4 _]. apply Forall_app in Hcl4 as [Hcl4 _].
    destruct (drop_tables_clean _ w3 Hw3 Hcl4) as (_ & _ & Hx).
    msimpl. rewrite !Hx, !Hx3.
    destruct (layers_are_not_backups l Hl) as (-> & -> & ->).
    by rewrite orb_true_r, andb_false_r.
Qed.

End Lawful.

(** ** The statements a call sends *)

Lemma statements_app evs1 evs2 :
  statements (evs1 ++ evs2) = (statements evs1 ++ statements evs2)%list.
Proof. apply omap_app. Qed.

Lemma layers_sent_app evs1 evs2 :
  layers_sent (evs1 ++ evs2) = (layers_sent evs1 ++ layers_sent evs2)%list.
Proof. unfold layers_sent. by rewrite statements_app, omap_app. Qed.

Lemma sends_only_ret Q {A} (a : A) : sends_only (DB:=DB) Q (mret a).
Proof. intros w. constructor. Qed.

Lemma sends_only_raise Q {A} e : sends_only (DB:=DB) Q (raise (A:=A) e).
Proof. intros w. constructor. Qed.

Lemma sends_only_sys_exit Q {A} code :
  sends_only (DB:=DB) Q (sys_exit (A:=A) code).
Proof. intros w. constructor. Qed.

Lemma sends_only_logging Q lvl msg : sends_only (DB:=DB) Q (logging lvl msg).
Proof. intros w. constructor. Qed.

Lemma sends_only_bind Q {A B} (m : M DB A) (k : A → M DB B) :
  sends_only Q m → (∀ a, sends_only Q (k a)) → sends_only Q (m ≫= k).
Proof.
  intros Hm Hk w. rewrite events_bind.
  destruct (outcome (m w)) as [a|e|c]; [|apply Hm..].
  rewrite statements_app. apply Forall_app. split; [apply Hm|apply Hk].
Qed.

Lemma sends_only_try Q {A} (body : M DB A) handler :
  sends_only Q body → (∀ e h, handler e = Some h → sends_only Q h) →
  sends_only Q (try_except body handler).
Proof.
  intros Hb Hh w. rewrite events_try.
  destruct (outcome (body w)) as [a|e|c]; [apply Hb| |apply Hb].
  destruct (handler e) as [h|] eqn:He; [|apply Hb].
  rewrite statements_app. apply Forall_app. split; [apply Hb|by eapply Hh].
Qed.

Lemma sends_only_cur_execute (Q : Stmt → Prop) q :
  Q q → sends_only Q (cur_execute q).
Proof.
  intros Hq w. unfold cur_execute. destruct (cur w); [|constructor].
  by repeat constructor.
Qed.

Lemma sends_only_conn_commit Q : sends_only Q conn_commit.
Proof. intros w. unfold conn_commit. destruct (conn w); constructor. Qed.

Lemma sends_only_update_osm_tables Q : sends_only Q update_osm_tables.
Proof.
  intros w. unfold update_osm_tables, subprocess_run_osm2pgsql. msimpl.
  destruct (osm2pgsql_installed w); msimpl; [|constructor].
  case_bool_decide; msimpl; constructor.
Qed.

Lemma sends_only_disconnect Q : sends_only (DB:=DB) Q disconnect.
Proof.
  intros w. unfold disconnect, get_attr_conn, cur_close, conn_close. msimpl.
  destruct (conn w) eqn:Hconn; msimpl; [|constructor].
  destruct (cur w); msimpl; [|constructor]. rewrite Hconn. msimpl. constructor.
Qed.

(** One step through the text of a method. *)
Ltac sends_step :=
  match goal with
  | |- sends_only _ (mret _) => apply sends_only_ret
  | |- sends_only _ (raise _) => apply sends_only_raise
  | |- sends_only _ (sys_exit _) => apply sends_only_sys_exit
  | |- sends_only _ (logging _ _) => apply sends_only_logging
  | |- sends_only _ conn_commit => apply sends_only_conn_commit
  | |- sends_only _ update_osm_tables => apply sends_only_update_osm_tables
  | |- sends_only _ disconnect => apply sends_only_disconnect
  | |- sends_only _ (mbind _ _) => apply sends_only_bind; [|intros ?]
  | |- sends_only _ (try_except _ _) =>
      apply sends_only_try;
      [|intros ? ? ?; cbv beta in *; repeat case_match; simplify_eq]
  | |- sends_only _ (match ?r with _ => _ end) => is_var r; destruct r
  end.

Lemma sends_only_copy_table (Q : Stmt → Prop) orig dest :
  Q (CopyTable orig dest) → sends_only Q (_copy_table orig dest).
Proof.
  intros Hq. unfold _copy_table. repeat sends_step.
  by apply sends_only_cur_execute.
Qed.

Lemma sends_only_backup_tables_loop (Q : Stmt → Prop) table_list :
  (∀ t, t ∈ table_list → Q (CopyTable t (backup_name t))) →
  sends_only Q (backup_tables_loop table_list).
Proof.
  induction table_list as [|table rest IH]; intros Hq; simpl;
    repeat sends_step.
  - apply sends_only_copy_table, Hq. by left.
  - apply IH. intros t Ht. apply Hq. by right.
Qed.

Lemma sends_only_backup_layers_loop (Q : Stmt → Prop) layers :
  (∀ t, t ∈ layers → Q (CopyTable t (backup_name t))) →
  sends_only Q (backup_layers_loop layers).
Proof.
  induction layers as [|layer rest IH]; intros Hq; simpl; repeat sends_step.
  - apply sends_only_copy_table, Hq. by left.
  - apply IH. intros t Ht. apply Hq. by right.
Qed.

Lemma sends_only_drop_tables (Q : Stmt → Prop) table_list :
  (∀ t, t ∈ table_list → Q (DropTableIfExists t)) →
  sends_only Q (drop_tables table_list).
Proof.
  induction table_list as [|table rest IH]; intros Hq; simpl;
    repeat sends_step.
  - apply sends_only_cur_execute, Hq. by left.
  - apply IH. intros t Ht. apply Hq. by right.
Qed.

Lemma sends_only_create_layers_loop (Q : Stmt → Prop) items :
  (∀ item, item ∈ items → Q item.2) →
  sends_only Q (create_layers_loop items).
Proof.
  induction items as [|[layer query] rest IH]; intros Hq; simpl;
    repeat sends_step.
  - apply sends_only_cur_execute, (Hq (layer, query)). by left.
  - apply IH. intros t Ht. apply Hq. by right.
Qed.

Lemma sends_only_backup_tables (Q : Stmt → Prop) table_list :
  (∀ t, t ∈ table_list → Q (CopyTable t (backup_name t))) →
  sends_only Q (backup_tables table_list).
Proof.
  intros Hq. unfold backup_tables. repeat sends_step.
  by apply sends_only_backup_tables_loop.
Qed.

Lemma sends_only_backup_layers (Q : Stmt → Prop) :
  (∀ t, t ∈ LAYERS.*1 → Q (CopyTable t (backup_name t))) →
  sends_only Q backup_layers.
Proof.
  intros Hq. unfold backup_layers. repeat sends_step.
  by apply sends_only_backup_layers_loop.
Qed.

Lemma sent_statement evs q ok : EvExecute q ok ∈ evs → q ∈ statements evs.
Proof.
  intros Hin. unfold statements. apply list_elem_of_omap.
  by exists (EvExecute q ok).
Qed.

(** The DROP of a backup and the copy of a backup over its original are
    not among the statements of [backs_up_or_drops], for a set that holds
    no backup name. *)
Lemma removal_and_restore_excluded set t :
  Forall (λ x, backup_name x ∉ set) set → t ∈ set →
  ¬ backs_up_or_drops set (DropTableIfExists (backup_name t)) ∧
  ¬ backs_up_or_drops set (CopyTable (backup_name t) t).
Proof.
  intros Hset Ht.
  pose proof (proj1 (Forall_forall _ _) Hset t Ht) as Hno.
  split; intros (t' & Ht' & [Hq|Hq]); try discriminate.
  - injection Hq as Hname. by rewrite <-Hname in Ht'.
  - injection Hq as Hname _. by rewrite <-Hname in Ht'.
Qed.

Lemma tables_hold_no_backup_name :
  Forall (λ x, backup_name x ∉ TABLES_OSM) TABLES_OSM.
Proof. by apply (bool_decide_unpack _); vm_compute. Qed.

Lemma layers_hold_no_backup_name :
  Forall (λ x, backup_name x ∉ LAYERS.*1) (LAYERS.*1).
Proof. by apply (bool_decide_unpack _); vm_compute. Qed.

(** The statements of a call whose backup phase has failed. *)
Lemma update_db_after_failed_backup w :
  outcome (backup_tables TABLES_OSM w) = Return false →
  Forall (backs_up_or_drops TABLES_OSM) (statements (events (update_db w))).
Proof.
  intros Hb. unfold update_db.
  rewrite (bind_return_eq _ _ w false Hb), events_prepend, statements_app.
  apply Forall_app. split.
  { apply sends_only_backup_tables. intros t Ht. exists t. by split; [|left]. }
  cbv beta.
  lazymatch goal with |- Forall ?Q (statements (events (?m ?w'))) =>
    assert (sends_only Q m) as Hrest; [|apply Hrest] end.
  apply sends_only_bind; [|intros _].
  { apply sends_only_drop_tables. intros t Ht. exists t. by split; [|right]. }
  apply sends_only_bind; [apply sends_only_update_osm_tables|intros complete].
  destruct complete; cbn [andb negb]; repeat sends_step.
Qed.

Lemma create_layers_after_failed_backup w :
  outcome (backup_layers w) = Return false →
  Forall (λ q, backs_up_or_drops (LAYERS.*1) q ∨ q ∈ LAYERS.*2)
    (statements (events (create_layers w))).
Proof.
  intros Hb. unfold create_layers.
  rewrite (bind_return_eq _ _ w ()) by done.
  rewrite events_prepend, statements_app. apply Forall_app. split; [constructor|].
  cbn [logging final].
  rewrite (bind_return_eq _ _ w false Hb), events_prepend, statements_app.
  apply Forall_app. split.
  { apply sends_only_backup_layers. intros t Ht. left. exists t.
    by split; [|left]. }
  cbv beta.
  lazymatch goal with |- Forall ?Q (statements (events (?m ?w'))) =>
    assert (sends_only Q m) as Hrest; [|apply Hrest] end.
  apply sends_only_bind; [|intros _].
  { apply sends_only_drop_tables. intros t Ht. left. exists t.
    by split; [|right]. }
  apply sends_only_bind; [|intros created].
  { apply sends_only_create_layers_loop. intros item Hitem. right.
    by apply (list_elem_of_fmap_2 snd). }
  destruct created; cbn [negb]; repeat sends_step.
Qed.

(** C1 (amended).  When the backup phase of a set fails, the call does not
    stop there.  Right after the backup it runs [drop_tables] on the
    originals of the set, which with a cursor open starts by sending the
    DROP of the first original, and then it starts the produce phase (the
    importer is announced in [update_db], the first layer in
    [create_layers]).  What the failed backup switches off is the removal
    of the backup tables and, in [update_db], the restore: every statement
    of the call is the copy of an original to its backup or the DROP of an
    original (or, in [create_layers], the build statement of a layer); no
    DROP of a backup table is sent, and no copy of a backup over its
    original. *)
Theorem backup_failure_does_not_abort w :
  is_Some (cur w) →
  (outcome (backup_tables TABLES_OSM w) = Return false →
   let w1 := final (backup_tables TABLES_OSM w) in
   (∃ ok rest1 rest2,
      events (drop_tables TABLES_OSM w1)
      = EvExecute (DropTableIfExists "planet_osm_line") ok :: rest1 ∧
      events (update_db w)
      = (events (backup_tables TABLES_OSM w)
         ++ events (drop_tables TABLES_OSM w1)
         ++ EvLog INFO MsgImportStarting :: rest2)%list) ∧
   Forall (backs_up_or_drops TABLES_OSM) (statements (events (update_db w))) ∧
   ∀ t ok, t ∈ TABLES_OSM →
     (EvExecute (DropTableIfExists (backup_name t)) ok ∉ events (update_db w)) ∧
     (EvExecute (CopyTable (backup_name t) t) ok ∉ events (update_db w))) ∧
  (outcome (backup_layers w) = Return false →
   let w1 := final (backup_layers w) in
   (∃ ok rest1 rest2,
      events (drop_tables (LAYERS.*1) w1)
      = EvExecute (DropTableIfExists "line_water") ok :: rest1 ∧
      events (create_layers w)
      = (EvLog INFO MsgCreatingLayers :: events (backup_layers w)
         ++ events (drop_tables (LAYERS.*1) w1)
         ++ EvLog INFO (MsgCreatingLayer "line_water") :: rest2)%list) ∧
   Forall (λ q, backs_up_or_drops (LAYERS.*1) q ∨ q ∈ LAYERS.*2)
     (statements (events (create_layers w))) ∧
   ∀ l ok, l ∈ LAYERS.*1 →
     (EvExecute (DropTableIfExists (backup_name l)) ok
      ∉ events (create_layers w)) ∧
     (EvExecute (CopyTable (backup_name l) l) ok ∉ events (create_layers w))).
Proof.
  intros Hc. destruct (failed_backup_goes_on w Hc) as [Htables Hlayers].
  split.
  - intros Hb w1. split; [by apply Htables|].
    pose proof (update_db_after_failed_backup w Hb) as Hsent.
    split; [done|]. intros t ok Ht.
    destruct (removal_and_restore_excluded TABLES_OSM t
                tables_hold_no_backup_name Ht) as [Hdrop Hcopy].
    split; intros Hin%sent_statement;
      by apply (proj1 (Forall_forall _ _) Hsent) in Hin.
  - intros Hb w1. split; [by apply Hlayers|].
    pose proof (create_layers_after_failed_backup w Hb) as Hsent.
    split; [done|]. intros l ok Hl.
    destruct (removal_and_restore_excluded (LAYERS.*1) l
                layers_hold_no_backup_name Hl) as [Hdrop Hcopy].
    split; intros Hin%sent_statement;
      apply (proj1 (Forall_forall _ _) Hsent) in Hin as [Hq|Hq]; try done;
      cbn in Hq; repeat (apply elem_of_cons in Hq as [Hq|Hq]); try done;
      by apply elem_of_nil in Hq.
Qed.

(** No layer is built by statements that are not build statements. *)
Lemma layers_sent_none evs :
  Forall (λ q, layer_of q = None) (statements evs) → layers_sent evs = [].
Proof.
  unfold layers_sent. induction (statements evs) as [|q qs IH]; [done|].
  intros [Hq Hqs]%Forall_cons. cbn. rewrite Hq. by apply IH.
Qed.

(** ** The order of the layers *)

Lemma connected_backup_layers w :
  connected w → connected (final (backup_layers w)).
Proof.
  intros Hw.
  assert (preserves (DB:=DB) connected (λ _, True) backup_layers) as Hp;
    [|by apply Hp].
  by apply preserves_backup_layers.
Qed.

Lemma connected_drop_tables table_list w :
  connected w → connected (final (drop_tables table_list w)).
Proof.
  intros Hw.
  assert (preserves (DB:=DB) connected (λ _, True) (drop_tables table_list))
    as Hp; [|by apply Hp].
  by apply preserves_drop_tables.
Qed.

Lemma layers_sent_backup_layers w : layers_sent (events (backup_layers w)) = [].
Proof. apply layers_sent_none. by apply sends_only_backup_layers. Qed.

Lemma layers_sent_drop_tables table_list w :
  layers_sent (events (drop_tables table_list w)) = [].
Proof. apply layers_sent_none. by apply sends_only_drop_tables. Qed.

(** C8 (amended).  With a connection open, [create_layers] sends the build
    statements in the order in which [LAYERS] lists its keys, [line_water]
    before [area_water], which is not the order of the names.  After the
    backup of the layers and the DROP of the originals, its trace goes on
    with a first part of the two layers, each announced, executed and
    committed; then either both are built and the call returns, or one
    statement or its commit was refused, the fatal message follows at once
    and the process ends with status 1: no further layer is announced or
    executed.  No build statement is sent anywhere else in the call. *)
Theorem create_layers_in_listed_order w :
  connected w →
  let line := ("line_water", CreateLayer "line_water" "planet_osm_line") in
  let area := ("area_water", CreateLayer "area_water" "planet_osm_polygon") in
  let w1 := final (backup_layers w) in
  ∃ n tail after,
    events (create_layers w)
    = (EvLog INFO MsgCreatingLayers :: events (backup_layers w)
       ++ events (drop_tables (LAYERS.*1) w1)
       ++ concat (layer_built <$> take n [line; area]) ++ tail ++ after)%list ∧
    layers_sent (events (create_layers w))
      `prefix_of` ["line_water"; "area_water"] ∧
    ((n = 2%nat ∧ tail = [] ∧ layers_sent after = [] ∧
      outcome (create_layers w) = Return ()) ∨
     (∃ item, [line; area] !! n = Some item ∧ layer_failed item tail ∧
        after = [EvLog FATAL MsgLayersFailed] ∧
        outcome (create_layers w) = Exit 1)).
Proof.
  intros Hw line area w1.
  pose proof (connected_backup_layers w Hw) as Hw1. fold w1 in Hw1.
  pose proof (connected_drop_tables (LAYERS.*1) w1 Hw1) as Hw2.
  destruct (returns_backup_layers w) as [bd Hbd].
  destruct (returns_drop_tables (LAYERS.*1) w1) as [b1 Hb1].
  set (w2 := final (drop_tables (LAYERS.*1) w1)) in *.
  destruct (create_layers_loop_events LAYERS w2) as (n & tail & Hev & Hout);
    [apply Hw2..|].
  unfold create_layers.
  rewrite (bind_return_eq _ _ w ()) by done. cbn [logging final events].
  rewrite (bind_return_eq _ _ w bd Hbd). fold w1.
  rewrite (bind_return_eq _ _ w1 b1 Hb1). fold w2.
  destruct Hout as [(-> & -> & Ho)|(item & Hi & Ht & Ho)].
  - (* both layers are built *)
    rewrite (bind_return_eq _ _ w2 true Ho). cbn [negb].
    set (w3 := final (create_layers_loop LAYERS w2)) in *.
    lazymatch goal with |- context [prepend _ (?rest w3)] =>
      assert (sends_only (λ q, layer_of q = None) rest) as Hrest
        by (destruct bd; repeat sends_step; by apply sends_only_drop_tables);
      assert (returns rest) as Hreturns
        by (pose proof (returns_drop_tables (backup_name <$> LAYERS.*1));
            destruct bd; nx);
      exists 2%nat, [], (events (rest w3));
      destruct (Hreturns w3) as [[] Hret];
      pose proof (layers_sent_none _ (Hrest w3)) as Hnone
    end.
    rewrite !outcome_prepend, !events_prepend, Hev, app_nil_r.
    split; [done|]. split; [|left; by split_and!].
    rewrite !layers_sent_app, layers_sent_backup_layers,
      layers_sent_drop_tables, Hnone.
    by exists [].
  - (* a statement or its commit is refused *)
    rewrite (bind_return_eq _ _ w2 false Ho). cbn [negb].
    exists n, tail, [EvLog FATAL MsgLayersFailed].
    rewrite !outcome_prepend, !events_prepend, Hev. msimpl.
    split; [by rewrite <-!app_assoc|]. split; [|right; by exists item].
    rewrite !layers_sent_app, layers_sent_backup_layers,
      layers_sent_drop_tables.
    destruct n as [|[|n]]; [| |done]; simplify_eq/=;
      destruct Ht as [-> | ->]; cbn.
    + by exists ["area_water"].
    + by exists ["area_water"].
    + by exists [].
    + by exists [].
Qed.

(** * Further properties of the methods *)

(** ** The extract and its backup file *)

Lemma shutil_move_ok src dst data w :
  files w !! src = Some data → fs_fault w OpMove = None →
  shutil_move src dst w
  = mkResult (Return ())
      (set_files (<[dst := data]> (delete src (files w))) w) [].
Proof. intros Hf Hm. unfold shutil_move. by rewrite Hf, Hm. Qed.

Lemma manage_backup_ok data w :
  files w !! PBF_FILENAME = Some data → fs_fault w OpMove = None →
  manage_backup w
  = mkResult (Return true)
      (set_files (<[PBF_BACKUP := data]> (delete PBF_FILENAME (files w))) w) [].
Proof.
  intros Hf Hm. unfold manage_backup, _create_file_backup. msimpl.
  by rewrite (shutil_move_ok _ _ data).
Qed.

(** X1.  [manage_backup] on an existing extract: it returns [True], the
    extract is now the backup file, byte for byte, the extract itself is
    gone, and no other file has changed. *)
Theorem manage_backup_moves_extract data w :
  files w !! PBF_FILENAME = Some data → fs_fault w OpMove = None →
  outcome (manage_backup w) = Return true ∧
  files (final (manage_backup w)) !! PBF_FILENAME = None ∧
  files (final (manage_backup w)) !! PBF_BACKUP = Some data ∧
  ∀ name, name ≠ PBF_FILENAME → name ≠ PBF_BACKUP →
    files (final (manage_backup w)) !! name = files w !! name.
Proof.
  intros Hf Hm. rewrite (manage_backup_ok data) by done.
  cbn [outcome final files set_files]. split_and!; [done| | |].
  - by rewrite lookup_insert_ne, lookup_delete_eq.
  - by rewrite lookup_insert_eq.
  - intros name H1 H2. by rewrite lookup_insert_ne, lookup_delete_ne.
Qed.

(** X2.  Backup, then restore: [manage_backup] followed by
    [restore_backup] puts the extract back with its content, leaves no
    backup file behind, and changes no other file. *)
Theorem backup_then_restore data w :
  files w !! PBF_FILENAME = Some data → fs_fault w OpMove = None →
  let r := (manage_backup;; restore_backup) w in
  outcome r = Return () ∧
  files (final r) !! PBF_FILENAME = Some data ∧
  files (final r) !! PBF_BACKUP = None ∧
  ∀ name, name ≠ PBF_FILENAME → name ≠ PBF_BACKUP →
    files (final r) !! name = files w !! name.
Proof.
  intros Hf Hm r. subst r.
  rewrite (bind_return_eq _ _ w true) by (by rewrite (manage_backup_ok data)).
  rewrite outcome_prepend, final_prepend, (manage_backup_ok data) by done.
  cbn [final]. set (w1 := set_files _ w).
  assert (restore_backup w1
          = mkResult (Return ())
              (set_files (<[PBF_FILENAME := data]>
                            (delete PBF_BACKUP (files w1))) w1)
              [EvLog INFO MsgFileRestored]) as ->.
  { unfold restore_backup. msimpl.
    rewrite (shutil_move_ok _ _ data); [done| |done].
    subst w1. cbn [files set_files]. by rewrite lookup_insert_eq. }
  subst w1. cbn [outcome final files set_files]. split_and!; [done| | |].
  - by rewrite lookup_insert_eq.
  - by rewrite lookup_insert_ne, lookup_delete_eq.
  - intros name H1 H2.
    by rewrite lookup_insert_ne, lookup_delete_ne, lookup_insert_ne,
      lookup_delete_ne.
Qed.

(** X3.  [restore_backup] without a backup file: it returns normally with a
    warning, and changes nothing. *)
Theorem restore_backup_without_backup w :
  files w !! PBF_BACKUP = None →
  restore_backup w
  = mkResult (Return ()) w
      [EvLog WARNING (MsgFileRestoreFailed FileNotFoundError)].
Proof.
  intros Hf. unfold restore_backup, shutil_move. msimpl. by rewrite Hf.
Qed.

(** X4.  [prepare_download] when [manage_backup] lets a [PermissionError]
    or another [OSError] out: the process ends with status 1 after the
    fatal message of the matching [except] clause.  The extract and every
    other file but the backup are as they were, and so are the database and
    the attributes.  The backup file need not be: when the rename and the
    removal of the extract are refused but the copy is not, the bytes of
    the extract have replaced whatever [map.backup] held. *)
Theorem prepare_download_refused err w :
  outcome (manage_backup w) = Raise err → is_OSError err = true →
  let r := prepare_download w in
  outcome r = Exit 1 ∧
  events r
  = [ EvLog INFO MsgCheckingMapFile;
      EvLog FATAL (if is_PermissionError err then MsgAccessDenied
                   else MsgCannotBackupFile) ] ∧
  final r = set_files (files (final r)) w ∧
  (∀ name, name ≠ PBF_BACKUP → files (final r) !! name = files w !! name) ∧
  (∀ data e, files w !! PBF_FILENAME = Some data →
     fs_fault w OpMove = Some e → fs_fault w OpOpen = None →
     fs_fault w OpWrite = None →
     files (final r) !! PBF_BACKUP = Some data).
Proof.
  intros Hraise Hos r. subst r. revert Hraise.
  unfold prepare_download, manage_backup, _create_file_backup, shutil_move,
    open_wb, file_write, os_remove.
  msimpl.
  destruct (files w !! PBF_FILENAME) as [data|] eqn:Hf; msimpl; [|done].
  destruct (fs_fault w OpMove) as [e1|] eqn:Hmove; msimpl; [|done].
  destruct (is_OSError e1) eqn:Hos1; msimpl.
  2:{ destruct (is_FileNotFoundError e1) eqn:Hnf; msimpl; [done|].
      intros [= ->]. congruence. }
  destruct (fs_fault w OpOpen) as [e2|] eqn:Hopen; msimpl.
  { (* the copy cannot open the backup file *)
    destruct (is_FileNotFoundError e2) eqn:Hnf; msimpl; [done|].
    intros [= ->].
    destruct (is_PermissionError err); msimpl; [|rewrite Hos; msimpl];
      (split_and!; [done|done|by destruct w|done|by intros ? ? ? ? ?]). }
  cbn [files fs_fault set_files].
  destruct (fs_fault w OpWrite) as [e3|] eqn:Hwrite; msimpl.
  { (* the copy cannot write: the backup file has been emptied *)
    destruct (is_FileNotFoundError e3) eqn:Hnf; msimpl; [done|].
    intros [= ->].
    destruct (is_PermissionError err); msimpl; [|rewrite Hos; msimpl];
      (split_and!; [done|done|done| |by intros ? ? ? ? ?]);
      intros name Hname; cbn [files set_files];
      by rewrite lookup_insert_ne. }
  cbn [files fs_fault set_files].
  rewrite lookup_alter_ne, lookup_insert_ne, Hf by done.
  destruct (fs_fault w OpRemove) as [e4|] eqn:Hremove; msimpl; [|done].
  (* the extract cannot be removed: the backup file holds its bytes *)
  destruct (is_FileNotFoundError e4) eqn:Hnf; msimpl; [done|].
  intros [= ->].
  destruct (is_PermissionError err); msimpl; [|rewrite Hos; msimpl];
    (split_and!; [done|done|done| |]); cbn [files set_files].
  all: try (intros name Hname; by rewrite lookup_alter_ne, lookup_insert_ne).
  all: intros data' e' [= <-] _ _ _;
    by rewrite lookup_alter_eq, lookup_insert_eq.
Qed.

(** X5.  A run that finds the local extract as large as the remote one, and
    is given no flag, exits with status 0 after the check alone: nothing is
    moved, downloaded, imported or sent to the database. *)
Theorem run_fresh_skip data w :
  files w !! PBF_FILENAME = Some data → fs_fault w OpStat = None →
  remote_head w = Some (LengthIs (Z.of_nat (length data))) →
  run false false false w
  = mkResult (Exit 0) w [EvLog INFO MsgNoUpdateNeeded].
Proof.
  intros Hf Hs Hh. unfold run, check_if_obsolete, os_stat_size, requests_head.
  msimpl. rewrite Hf, Hs. msimpl. rewrite Hh. msimpl.
  rewrite bool_decide_true by done. by msimpl.
Qed.

(** ** The download and the files *)

Lemma download_loop_frame total downloaded stream w :
  let r := download_loop total downloaded stream w in
  fs_fault (final r) = fs_fault w ∧ db (final r) = db w ∧
  ∀ name, name ≠ PBF_FILENAME → files (final r) !! name = files w !! name.
Proof.
  revert downloaded w.
  induction stream as [|[[|b chunk]|] rest IH]; intros downloaded w;
    simpl; case_bool_decide; try done.
  unfold file_write. msimpl. destruct (fs_fault w OpWrite) eqn:E; [done|].
  msimpl.
  set (w1 := set_files _ w).
  destruct (IH (downloaded + Z.of_nat (S (length chunk))) w1) as (Hf & Hd & Hn).
  destruct (download_loop _ _ rest w1) as [o w2 evs].
  cbn [prepend final] in *. split_and!; [done|done|].
  intros name Hname. rewrite Hn by done. subst w1. cbn [files set_files].
  by rewrite lookup_alter_ne.
Qed.

(** X6.  [download_pbf] always returns, it never raises and never ends the
    process; and whatever happens it touches no file but the extract, and
    leaves the database alone. *)
Theorem download_pbf_frame w :
  (∃ b, outcome (download_pbf w) = Return b) ∧
  db (final (download_pbf w)) = db w ∧
  fs_fault (final (download_pbf w)) = fs_fault w ∧
  ∀ name, name ≠ PBF_FILENAME →
    files (final (download_pbf w)) !! name = files w !! name.
Proof.
  split; [apply returns_download_pbf|].
  unfold download_pbf, open_wb, requests_get. msimpl.
  destruct (fs_fault w OpOpen); msimpl; [done|].
  cbn [remote_get set_files].
  assert (∀ name, name ≠ PBF_FILENAME →
            <[PBF_FILENAME := []]> (files w) !! name = files w !! name) as Hins
    by (intros name Hname; by rewrite lookup_insert_ne).
  destruct (remote_get w) as [resp|]; msimpl; [|done].
  destruct (content_length resp) as [| |n]; msimpl; [done|done|].
  set (w1 := set_files _ w).
  destruct (download_loop_frame n 0 (raw resp) w1) as (Hf & Hd & Hn).
  destruct (download_loop n 0 (raw resp) w1) as [[[]|e|c] w2 evs];
    cbn [final] in *; msimpl; split_and!; try done;
    intros name Hname; rewrite Hn by done; by apply Hins.
Qed.

(** X7.  When the request for the extract fails, [download_pbf] returns
    [False] after a fatal message, and the extract file is left empty: it
    was opened for writing before the request was made. *)
Theorem download_pbf_request_fails w :
  fs_fault w OpOpen = None → remote_get w = None →
  download_pbf w
  = mkResult (Return false) (set_files (<[PBF_FILENAME := []]> (files w)) w)
      [EvLog FATAL (MsgDownloadError RequestException)].
Proof.
  intros Ho Hg. unfold download_pbf, open_wb, requests_get. msimpl.
  rewrite Ho. msimpl. cbn [remote_get set_files]. rewrite Hg. by msimpl.
Qed.

(** X8.  [delete_backup] always returns [None]; it changes no file but the
    backup, and unless the removal is refused the backup does not exist
    afterwards (whether it existed before or not). *)
Theorem delete_backup_removes w :
  outcome (delete_backup w) = Return () ∧
  (fs_fault w OpRemove = None →
   files (final (delete_backup w)) !! PBF_BACKUP = None) ∧
  ∀ name, name ≠ PBF_BACKUP →
    files (final (delete_backup w)) !! name = files w !! name.
Proof.
  unfold delete_backup, os_path_exists, os_remove. msimpl.
  case_bool_decide as Hex; msimpl.
  - destruct Hex as [data Hdata]. rewrite Hdata.
    destruct (fs_fault w OpRemove); msimpl; [done|].
    cbn [files set_files]. split_and!; [done| |].
    + intros _. apply lookup_delete_eq.
    + intros name Hname. by rewrite lookup_delete_ne.
  - split_and!; [done| |done]. intros _.
    by apply eq_None_not_Some.
Qed.

(** X9.  [prepare_update] after a backup, when the download fails: the
    backup is moved back over whatever the download left, so the extract has
    its old content again and no backup file remains, and the process ends
    with status 1. *)
Theorem prepare_update_restores data w :
  files w !! PBF_BACKUP = Some data → fs_fault w OpMove = None →
  outcome (download_pbf w) = Return false →
  let r := prepare_update true w in
  outcome r = Exit 1 ∧
  files (final r) !! PBF_FILENAME = Some data ∧
  files (final r) !! PBF_BACKUP = None.
Proof.
  intros Hb Hm Hd r. subst r. unfold prepare_update.
  destruct (download_pbf_frame w) as (_ & _ & Hfault & Hfiles).
  rewrite (bind_return_eq _ _ w false Hd).
  rewrite outcome_prepend, final_prepend. cbn [andb negb].
  set (w1 := final (download_pbf w)) in *.
  assert (restore_backup w1
          = mkResult (Return ())
              (set_files (<[PBF_FILENAME := data]>
                            (delete PBF_BACKUP (files w1))) w1)
              [EvLog INFO MsgFileRestored]) as Hrestore.
  { unfold restore_backup. msimpl.
    rewrite (shutil_move_ok _ _ data); [done| |congruence].
    by rewrite Hfiles. }
  msimpl. rewrite Hrestore. msimpl. cbn [files set_files].
  split_and!; [done| |].
  - by rewrite lookup_insert_eq.
  - by rewrite lookup_insert_ne, lookup_delete_eq.
Qed.

(** X10.  [prepare_update] after a backup, when the download succeeds: it
    returns [True], the extract is what the download wrote, and unless the
    removal is refused the backup file is gone. *)
Theorem prepare_update_commits w :
  outcome (download_pbf w) = Return true →
  let r := prepare_update true w in
  outcome r = Return true ∧
  files (final r) !! PBF_FILENAME
  = files (final (download_pbf w)) !! PBF_FILENAME ∧
  (fs_fault w OpRemove = None → files (final r) !! PBF_BACKUP = None).
Proof.
  intros Hd r. subst r. unfold prepare_update.
  destruct (download_pbf_frame w) as (_ & _ & Hfault & _).
  rewrite (bind_return_eq _ _ w true Hd).
  rewrite outcome_prepend, final_prepend. cbn [andb negb].
  set (w1 := final (download_pbf w)) in *.
  destruct (delete_backup_removes w1) as (Ho & Hgone & Hother).
  rewrite (bind_return_eq _ _ w1 ())
    by (by rewrite (bind_return_eq _ _ w1 ()), outcome_prepend).
  rewrite outcome_prepend, final_prepend.
  rewrite (bind_return_eq _ _ w1 ()) by done.
  rewrite final_prepend. msimpl. split_and!; [done| |].
  - by apply Hother.
  - intros Hr. apply Hgone. congruence.
Qed.

(** ** The connection *)

(** X11.  [connect]: when the server can be reached it returns with both
    attributes set and nothing else changed; when it cannot, the process
    ends with status 1 after a fatal message, with nothing changed. *)
Theorem connect_result w :
  (pg_reachable w = true →
   connect w
   = mkResult (Return ())
       (set_cur (Some PgCursor) (set_conn (Some PgConnection) w))
       [EvLog INFO MsgConnected]) ∧
  (pg_reachable w = false →
   connect w = mkResult (Exit 1) w [EvLog FATAL MsgConnectFailed]).
Proof.
  split; intros Hr;
    unfold connect, psycopg2_connect, set_attr_conn, set_attr_cur; msimpl;
    rewrite Hr; by msimpl.
Qed.

(** ** The base tables *)

(** X12.  [update_db] never returns [False]: when it returns, the value is
    [True]; a failed import ends the process instead. *)
Theorem update_db_returns_only_true w b :
  outcome (update_db w) = Return b → b = true.
Proof.
  intros Hret. destruct b; [done|].
  by apply update_db_never_returns_false in Hret.
Qed.

(** X13.  [update_db] on a machine where the importer cannot be started:
    the [FileNotFoundError] of the subprocess call leaves [update_db]
    uncaught, after the backup and the drop of the originals have been
    gone through. *)
Theorem update_db_without_importer w :
  osm2pgsql_installed w = false →
  outcome (update_db w) = Raise FileNotFoundError ∧
  ∃ rest,
    events (update_db w)
    = (events (backup_tables TABLES_OSM w)
       ++ events (drop_tables TABLES_OSM (final (backup_tables TABLES_OSM w)))
       ++ rest)%list.
Proof.
  intros Hi.
  assert (preserves (DB:=DB) (λ w, osm2pgsql_installed w = false) (λ _, True)
            (backup_tables TABLES_OSM)) as Hb.
  { unfold backup_tables. apply preserves_bind; [|intros _].
    - by apply preserves_logging_update.
    - by apply preserves_backup_tables_loop, may_back_up_tables. }
  assert (preserves (DB:=DB) (λ w, osm2pgsql_installed w = false) (λ _, True)
            (drop_tables TABLES_OSM)) as Hd
    by (by apply preserves_drop_tables).
  destruct (Hb w Hi) as [H1 _].
  destruct (returns_backup_tables TABLES_OSM w) as [bd Hbd].
  set (w1 := final (backup_tables TABLES_OSM w)) in *.
  destruct (Hd w1 H1) as [H2 _].
  destruct (returns_drop_tables TABLES_OSM w1) as [b1 Hb1].
  set (w2 := final (drop_tables TABLES_OSM w1)) in *.
  unfold update_db.
  rewrite (bind_return_eq _ _ w bd Hbd). fold w1.
  rewrite (bind_return_eq _ _ w1 b1 Hb1). fold w2.
  rewrite !outcome_prepend, !events_prepend.
  assert (update_osm_tables w2
          = mkResult (Raise FileNotFoundError) w2 [EvLog INFO MsgImportStarting])
    as Himp.
  { unfold update_osm_tables, subprocess_run_osm2pgsql. msimpl.
    rewrite H2. by msimpl. }
  rewrite outcome_bind, events_bind, Himp. cbn [outcome events].
  split; [done|]. by eexists.
Qed.

Lemma restore_tables_loop_step table rest w :
  connected w →
  restore_tables_loop (table :: rest) w
  = let r1 := db_execute (CopyTable (backup_name table) table) (db w) in
    let r2 := db_commit r1.2 in
    if r1.1 then
      if r2.1 then
        prepend [ EvLog INFO (MsgRestoringTable table);
                  EvExecute (CopyTable (backup_name table) table) true;
                  EvCommit true ]
          (restore_tables_loop rest (set_db r2.2 (set_db r1.2 w)))
      else
        mkResult (Return false) (set_db r2.2 (set_db r1.2 w))
          [ EvLog INFO (MsgRestoringTable table);
            EvExecute (CopyTable (backup_name table) table) true;
            EvCommit false;
            EvLog ERROR (MsgTableRestoreFailed table DatabaseError) ]
    else
      mkResult (Return false) (set_db r1.2 w)
        [ EvLog INFO (MsgRestoringTable table);
          EvExecute (CopyTable (backup_name table) table) false;
          EvLog ERROR (MsgTableRestoreFailed table DatabaseError) ].
Proof. intros [[k Hk] [c Hc]]. loop_step Hk Hc. Qed.

Lemma disconnect_connected w :
  connected w →
  disconnect w = mkResult (Return ()) w [EvLog INFO MsgDisconnected].
Proof.
  intros [[k Hk] [c Hc]]. unfold disconnect, get_attr_conn, cur_close, conn_close.
  msimpl. rewrite Hk. msimpl. rewrite Hc. msimpl. rewrite Hk. by msimpl.
Qed.

Lemma no_exit_update_osm_tables : no_exit update_osm_tables.
Proof. unfold update_osm_tables. nx. Qed.

Lemma connected_update_osm_tables w :
  connected w → connected (final (update_osm_tables w)).
Proof.
  intros Hw. unfold update_osm_tables, subprocess_run_osm2pgsql. msimpl.
  destruct (osm2pgsql_installed w); msimpl; [|done].
  by case_bool_decide; msimpl.
Qed.

Lemma Forall_events_bind_l {A B} P (m : M DB A) (k : A → M DB B) w :
  Forall P (events ((m ≫= k) w)) → Forall P (events (m w)).
Proof.
  destruct (events_bind_prefix m k w) as [rest ->]. intros Hall.
  by apply Forall_app in Hall as [? _].
Qed.

Section Restoring.
Context `{!LawfulDatabase DB} `{!CopyLaw DB}.

Let clean (ev : Event) : Prop := is_db_failure ev = false.

Ltac dirty H :=
  exfalso; repeat (apply Forall_cons in H as [? H]); done.

(** With a connection, [drop_tables] returns [True] only if nothing was
    refused. *)
Lemma drop_tables_true_clean table_list w :
  connected w → outcome (drop_tables table_list w) = Return true →
  Forall clean (events (drop_tables table_list w)).
Proof.
  revert w. induction table_list as [|table rest IH]; intros w Hw Ho; [done|].
  rewrite drop_tables_step in * by done.
  destruct (db_execute _ (db w)) as [[] d1]; cbn [fst snd] in *; [|done].
  destruct (db_commit d1) as [[] d2]; cbn [fst snd] in *; [|done].
  rewrite outcome_prepend in Ho. rewrite events_prepend.
  apply Forall_app. split; [by repeat constructor|]. by apply IH.
Qed.

(** X14.  With a connection open, [drop_tables] returns [True] exactly
    when the database accepted every DROP and every commit; and then the
    tables of the list are gone and every other table is as it was. *)
Theorem drop_tables_all_or_false table_list w :
  connected w →
  (outcome (drop_tables table_list w) = Return true ↔
   Forall (λ ev, is_db_failure ev = false) (events (drop_tables table_list w))) ∧
  (outcome (drop_tables table_list w) = Return true →
   ∀ x, db_exists x (db (final (drop_tables table_list w)))
        = db_exists x (db w) && bool_decide (x ∉ table_list)).
Proof.
  intros Hw. split; [split|].
  - by apply drop_tables_true_clean.
  - intros Hcl. by apply drop_tables_clean.
  - intros Ho. apply drop_tables_clean; [done|].
    by apply drop_tables_true_clean.
Qed.

Lemma backup_tables_loop_exists table_list w :
  connected w → Forall clean (events (backup_tables_loop table_list w)) →
  ∀ x, db_exists x (db (final (backup_tables_loop table_list w)))
       = db_exists x (db w) || bool_decide (x ∈ backup_name <$> table_list).
Proof.
  revert w. induction table_list as [|table rest IH]; intros w Hw Hcl x.
  - cbn. rewrite bool_decide_false by apply not_elem_of_nil.
    by rewrite orb_false_r.
  - rewrite backup_tables_loop_step in * by done.
    destruct (db_execute _ (db w)) as [[] d1] eqn:E1; cbn [fst snd] in *;
      [|dirty Hcl].
    destruct (db_commit d1) as [[] d2] eqn:E2; cbn [fst snd] in *;
      [|dirty Hcl].
    rewrite final_prepend. rewrite events_prepend in Hcl.
    apply Forall_app in Hcl as [_ Hcl].
    rewrite IH by done. cbn [db set_db].
    rewrite (commit_exists _ _ E2), (copy_exists _ _ _ _ E1).
    rewrite <-orb_assoc. f_equal. cbn [fmap list_fmap].
    rewrite <-bool_decide_or. apply bool_decide_ext. by rewrite elem_of_cons.
Qed.

(** X15.  With a connection open, when the database refuses nothing,
    [backup_tables] returns [True], every table of the list has its backup
    table, and no other table has appeared or disappeared. *)
Theorem backup_tables_creates_backups table_list w :
  connected w →
  Forall (λ ev, is_db_failure ev = false) (events (backup_tables table_list w)) →
  outcome (backup_tables table_list w) = Return true ∧
  ∀ x, db_exists x (db (final (backup_tables table_list w)))
       = db_exists x (db w) || bool_decide (x ∈ backup_name <$> table_list).
Proof.
  intros Hw Hcl. split; [by apply backup_tables_clean|].
  unfold backup_tables in *.
  rewrite (bind_return_eq _ _ w ()) in * by done.
  rewrite final_prepend. rewrite events_prepend in Hcl.
  apply Forall_app in Hcl as [_ Hcl]. by apply backup_tables_loop_exists.
Qed.

Lemma restore_tables_clean table_list w :
  connected w → Forall clean (events (restore_tables table_list w)) →
  outcome (restore_tables table_list w) = Return true ∧
  connected (final (restore_tables table_list w)) ∧
  ∀ x, db_exists x (db (final (restore_tables table_list w)))
       = db_exists x (db w) || bool_decide (x ∈ table_list).
Proof.
  intros Hw Hcl. unfold restore_tables in *.
  rewrite (bind_return_eq _ _ w ()) in * by done.
  rewrite outcome_prepend, final_prepend. rewrite events_prepend in Hcl.
  apply Forall_app in Hcl as [_ Hcl]. cbn [logging final] in *.
  revert w Hw Hcl. induction table_list as [|table rest IH]; intros w Hw Hcl.
  - split_and!; [done|done|]. intros x. cbn.
    rewrite bool_decide_false by apply not_elem_of_nil.
    by rewrite orb_false_r.
  - rewrite restore_tables_loop_step in * by done.
    destruct (db_execute _ (db w)) as [[] d1] eqn:E1; cbn [fst snd] in *;
      [|dirty Hcl].
    destruct (db_commit d1) as [[] d2] eqn:E2; cbn [fst snd] in *;
      [|dirty Hcl].
    rewrite outcome_prepend, final_prepend. rewrite events_prepend in Hcl.
    apply Forall_app in Hcl as [_ Hcl].
    destruct (IH (set_db d2 (set_db d1 w))) as (Ho & Hc & Hx); [done|done|].
    split_and!; [done|done|]. intros x. rewrite Hx. cbn [db set_db].
    rewrite (commit_exists _ _ E2), (copy_exists _ _ _ _ E1).
    rewrite <-orb_assoc. f_equal.
    rewrite <-bool_decide_or. apply bool_decide_ext. by rewrite elem_of_cons.
Qed.

(** The restore of [update_db] and the removal of the backups after it. *)
Lemma restore_block_clean w :
  connected w →
  let block :=
    restored ← restore_tables TABLES_OSM;
    if restored : bool then
      drop_tables (backup_name <$> TABLES_OSM);;
      logging WARNING MsgTableBackupsRestored
    else mret () in
  Forall clean (events (block w)) →
  outcome (block w) = Return () ∧ connected (final (block w)) ∧
  ∀ x, db_exists x (db (final (block w)))
       = (db_exists x (db w) || bool_decide (x ∈ TABLES_OSM))
         && bool_decide (x ∉ backup_name <$> TABLES_OSM).
Proof.
  intros Hw block Hcl. subst block.
  pose proof (Forall_events_bind_l _ _ _ _ Hcl) as Hcl1.
  destruct (restore_tables_clean TABLES_OSM w Hw Hcl1) as (Hrs & Hw1 & Hx1).
  rewrite (bind_return_eq _ _ w true Hrs) in *.
  rewrite outcome_prepend, final_prepend. rewrite events_prepend in Hcl.
  apply Forall_app in Hcl as [_ Hcl].
  set (w1 := final (restore_tables TABLES_OSM w)) in *.
  pose proof (Forall_events_bind_l _ _ _ _ Hcl) as Hcl2.
  destruct (drop_tables_clean _ w1 Hw1 Hcl2) as (Hb2 & Hw2 & Hx2).
  rewrite (bind_return_eq _ _ w1 true Hb2).
  rewrite outcome_prepend, final_prepend. cbn [logging outcome final].
  split_and!; [done|done|]. intros x. by rewrite Hx2, Hx1.
Qed.

(** X16.  Import failure with restore: with a connection open and a
    database that refuses nothing, when [update_db] ends the process, the
    status is 1, every original table exists again (copied back from its
    backup) and no backup table remains. *)
Theorem update_db_import_failure_restores w code :
  connected w →
  Forall (λ ev, is_db_failure ev = false) (events (update_db w)) →
  outcome (update_db w) = Exit code →
  code = 1 ∧
  ∀ t, t ∈ TABLES_OSM →
    db_exists t (db (final (update_db w))) = true ∧
    db_exists (backup_name t) (db (final (update_db w))) = false.
Proof.
  intros Hw Hcl Hexit. unfold update_db in *.
  (* the backup *)
  destruct (returns_backup_tables TABLES_OSM w) as [bd Hbd].
  rewrite (bind_return_eq _ _ w bd Hbd) in *.
  rewrite outcome_prepend in Hexit. rewrite events_prepend in Hcl.
  rewrite final_prepend. apply Forall_app in Hcl as [Hcl1 Hcl].
  destruct (backup_tables_clean TABLES_OSM w Hw Hcl1) as [Hbd' Hw1].
  assert (bd = true) as -> by congruence.
  set (w1 := final (backup_tables TABLES_OSM w)) in *.
  (* the drop of the originals *)
  destruct (returns_drop_tables TABLES_OSM w1) as [b1 Hb1].
  rewrite (bind_return_eq _ _ w1 b1 Hb1) in *.
  rewrite outcome_prepend in Hexit. rewrite events_prepend in Hcl.
  rewrite final_prepend. apply Forall_app in Hcl as [Hcl2 Hcl].
  destruct (drop_tables_clean TABLES_OSM w1 Hw1 Hcl2) as (_ & Hw2 & _).
  set (w2 := final (drop_tables TABLES_OSM w1)) in *.
  (* the import *)
  pose proof (connected_update_osm_tables w2 Hw2) as Hw3.
  destruct (outcome (update_osm_tables w2)) as [uc|e|c] eqn:Huc.
  2:{ by rewrite outcome_bind, Huc in Hexit. }
  2:{ by apply no_exit_update_osm_tables in Huc. }
  rewrite (bind_return_eq _ _ w2 uc Huc) in *.
  rewrite outcome_prepend in Hexit. rewrite events_prepend in Hcl.
  rewrite final_prepend. apply Forall_app in Hcl as [_ Hcl].
  set (w3 := final (update_osm_tables w2)) in *.
  destruct uc; cbn [andb negb] in *.
  { (* the import succeeded: the call returns *)
    destruct (returns_drop_tables (backup_name <$> TABLES_OSM) w3) as [b4 Hb4].
    rewrite (bind_return_eq _ _ w3 ()) in Hexit
      by (by rewrite (bind_return_eq _ _ w3 b4 Hb4), outcome_prepend).
    by rewrite outcome_prepend in Hexit. }
  (* the restore, and the end of the process *)
  clearbody w3. clear Huc.
  pose proof (Forall_events_bind_l _ _ _ _ Hcl) as Hcl3.
  pose proof (Forall_events_bind_l _ _ _ _ Hcl3) as Hcl4.
  destruct (restore_block_clean w3 Hw3 Hcl4) as (Hblock & Hw4 & Hx4).
  lazymatch type of Hcl3 with Forall _ (events (?failure _)) =>
    assert (outcome (failure w3) = Exit 1 ∧
            ∀ x, db_exists x (db (final (failure w3)))
                 = (db_exists x (db w3) || bool_decide (x ∈ TABLES_OSM))
                   && bool_decide (x ∉ backup_name <$> TABLES_OSM))
      as [Ho Hx]
  end.
  { rewrite (bind_return_eq _ _ w3 () Hblock), outcome_prepend, final_prepend.
    lazymatch type of Hw4 with connected ?w' =>
      revert Hw4 Hx4; generalize w'; intros w4 Hw4 Hx4
    end.
    msimpl. rewrite (disconnect_connected w4 Hw4). by msimpl. }
  rewrite outcome_bind, Ho in Hexit. rewrite final_bind, Ho.
  injection Hexit as <-. split; [done|]. intros t Ht. rewrite !Hx.
  destruct (tables_are_not_backups t Ht) as (-> & -> & ->).
  by rewrite orb_true_r, andb_false_r.
Qed.

End Restoring.

(** ** How a guarded replacement ends *)

Lemma connected_backup_tables w :
  connected w → connected (final (backup_tables TABLES_OSM w)).
Proof.
  intros Hw.
  assert (preserves (DB:=DB) connected (λ _, True) (backup_tables TABLES_OSM))
    as Hp; [|by apply Hp].
  unfold backup_tables. apply preserves_bind; [|intros _].
  - by apply preserves_logging_update.
  - by apply preserves_backup_tables_loop, may_back_up_tables.
Qed.

(** The restore of [update_db], with the removal of the backups after it,
    returns and keeps the connection. *)
Lemma restore_block_returns (backup_is_done : bool) w :
  connected w →
  let block :=
    if backup_is_done then
      restored ← restore_tables TABLES_OSM;
      if restored : bool then
        drop_tables (backup_name <$> TABLES_OSM);;
        logging WARNING MsgTableBackupsRestored
      else mret ()
    else mret () in
  outcome (block w) = Return () ∧ connected (final (block w)).
Proof.
  intros Hw block.
  assert (returns block) as Hreturns.
  { subst block. destruct backup_is_done; [|nx].
    apply returns_bind; [apply returns_restore_tables|intros []]; [|nx].
    apply returns_bind; [apply returns_drop_tables|intros _]. nx. }
  assert (preserves (DB:=DB) connected (λ _, True) block) as Hkept.
  { subst block. destruct backup_is_done; [|by apply preserves_ret].
    apply preserves_bind; [|intros []].
    - by apply preserves_restore_tables, may_restore_tables.
    - apply preserves_bind; [by apply preserves_drop_tables|intros _].
      by apply preserves_logging_update.
    - by apply preserves_ret. }
  destruct (Hreturns w) as [[] Hret]. split; [done|]. by apply Hkept.
Qed.

(** [update_db] ends as the importer call tells it to. *)
Lemma update_db_outcome w :
  connected w →
  let w2 := final (drop_tables TABLES_OSM (final (backup_tables TABLES_OSM w))) in
  outcome (update_db w)
  = match outcome (update_osm_tables w2) with
    | Return true => Return true
    | Return false => Exit 1
    | Raise e => Raise e
    | Exit code => Exit code
    end.
Proof.
  intros Hw w2.
  pose proof (connected_backup_tables w Hw) as Hw1.
  pose proof (connected_drop_tables TABLES_OSM _ Hw1) as Hw2. fold w2 in Hw2.
  pose proof (connected_update_osm_tables w2 Hw2) as Hw3.
  destruct (returns_backup_tables TABLES_OSM w) as [bd Hbd].
  destruct (returns_drop_tables TABLES_OSM
              (final (backup_tables TABLES_OSM w))) as [b1 Hb1].
  unfold update_db.
  rewrite (bind_return_eq _ _ w bd Hbd), outcome_prepend.
  rewrite (bind_return_eq _ _ _ b1 Hb1), outcome_prepend. fold w2.
  rewrite outcome_bind.
  destruct (outcome (update_osm_tables w2)) as [complete|e|code]; [|done..].
  set (w3 := final (update_osm_tables w2)) in *. clearbody w3.
  destruct complete; cbn [andb negb].
  - (* the import succeeded *)
    rewrite outcome_bind.
    lazymatch goal with |- context [outcome (?guarded w3)] =>
      assert (returns guarded) as Hguarded
        by (pose proof (returns_drop_tables (backup_name <$> TABLES_OSM));
            destruct bd; nx);
      destruct (Hguarded w3) as [[] ->] end.
    done.
  - (* the import failed *)
    destruct (restore_block_returns bd w3 Hw3) as [Hblock Hw4].
    rewrite outcome_bind.
    lazymatch goal with |- context [outcome (?failure w3)] =>
      assert (outcome (failure w3) = Exit 1) as -> end; [|done].
    rewrite (bind_return_eq _ _ w3 () Hblock), outcome_prepend.
    lazymatch type of Hw4 with connected ?w' =>
      revert Hw4; generalize w'; intros w4 Hw4 end.
    msimpl. rewrite (disconnect_connected w4 Hw4). by msimpl.
Qed.

(** [create_layers] returns when every layer was built, and ends the
    process otherwise. *)
Lemma create_layers_outcome w :
  let w2 := final (drop_tables (LAYERS.*1) (final (backup_layers w))) in
  ∃ created,
    outcome (create_layers_loop LAYERS w2) = Return created ∧
    outcome (create_layers w) = if created then Return () else Exit 1.
Proof.
  intros w2.
  destruct (returns_backup_layers w) as [bd Hbd].
  destruct (returns_drop_tables (LAYERS.*1) (final (backup_layers w)))
    as [b1 Hb1].
  destruct (returns_create_layers_loop LAYERS w2) as [created Hcreated].
  exists created. split; [done|]. unfold create_layers.
  rewrite (bind_return_eq _ _ w ()) by done. cbn [logging final].
  rewrite outcome_prepend.
  rewrite (bind_return_eq _ _ w bd Hbd), outcome_prepend.
  rewrite (bind_return_eq _ _ _ b1 Hb1), outcome_prepend. fold w2.
  rewrite (bind_return_eq _ _ w2 created Hcreated), outcome_prepend.
  destruct created; cbn [negb]; [|by msimpl].
  lazymatch goal with |- outcome (?rest ?w3) = _ =>
    assert (returns rest) as Hreturns
      by (pose proof (returns_drop_tables (backup_name <$> LAYERS.*1));
          destruct bd; nx);
    by destruct (Hreturns w3) as [[] ->] end.
Qed.

Section Duality.
Context `{!LawfulDatabase DB}.

(** C7 (amended).  With a connection open and a database that does what the
    statements say.  When [update_db] or [create_layers] returns control
    after a call in which the database refused no statement and no commit,
    every original of the set exists and none of its backup tables does.
    The calls return control only when the produce phase succeeded:
    [update_db] returns [True] when [update_osm_tables] returned [True],
    ends the process with status 1 when it returned [False], whatever the
    restore did, and lets the exception out when it raised; [create_layers]
    returns when every layer statement and its commit were accepted and
    ends the process with status 1 otherwise.  No other outcome marks a
    call in which produce and restore both failed. *)
Theorem replaced_set_is_clean w :
  connected w →
  (∀ b, outcome (update_db w) = Return b →
        Forall (λ ev, is_db_failure ev = false) (events (update_db w)) →
        ∀ t, t ∈ TABLES_OSM →
          db_exists t (db (final (update_db w))) = true ∧
          db_exists (backup_name t) (db (final (update_db w))) = false) ∧
  (outcome (create_layers w) = Return () →
   Forall (λ ev, is_db_failure ev = false) (events (create_layers w)) →
   ∀ l, l ∈ LAYERS.*1 →
     db_exists l (db (final (create_layers w))) = true ∧
     db_exists (backup_name l) (db (final (create_layers w))) = false) ∧
  (let w2 :=
     final (drop_tables TABLES_OSM (final (backup_tables TABLES_OSM w))) in
   outcome (update_db w)
   = match outcome (update_osm_tables w2) with
     | Return true => Return true
     | Return false => Exit 1
     | Raise e => Raise e
     | Exit code => Exit code
     end) ∧
  (let w2 := final (drop_tables (LAYERS.*1) (final (backup_layers w))) in
   ∃ created,
     outcome (create_layers_loop LAYERS w2) = Return created ∧
     outcome (create_layers w) = if created then Return () else Exit 1).
Proof.
  intros Hw. destruct (clean_replacement w Hw) as [Htables Hlayers].
  split_and!; [done|done| |].
  - by apply update_db_outcome.
  - apply create_layers_outcome.
Qed.

End Duality.

(** ** The restore of the layers *)

Lemma restore_layers_loop_all_or_exit layers w :
  match outcome (restore_layers_loop layers w) with
  | Return _ =>
      events (restore_layers_loop layers w) = concat (layer_restored <$> layers)
  | Raise _ => False
  | Exit code => code = 1
  end.
Proof.
  revert w. induction layers as [|layer rest IH]; intros w; [done|].
  simpl. unfold _copy_table, cur_execute, conn_commit. msimpl.
  destruct (cur w); msimpl; [|done].
  destruct (db_execute _ (db w)) as [[] d1]; cbn [fst snd]; msimpl; [|done].
  cbn [conn db set_db]. destruct (conn w); msimpl; [|done].
  destruct (db_commit d1) as [[] d2]; cbn [fst snd]; msimpl; [|done].
  specialize (IH (set_db d2 (set_db d1 w))).
  destruct (restore_layers_loop rest _) as [[[]|e'|code] w' evs];
    cbn [outcome events] in *; [|done..].
  by rewrite IH.
Qed.

(** X17.  [restore_layers] never raises.  It returns only when every
    layer, in the order of [LAYERS], has been copied back from its backup
    and committed; at the first copy or commit that fails, or without a
    cursor, it ends the process with status 1. *)
Theorem restore_layers_all_or_exit w :
  match outcome (restore_layers w) with
  | Return _ =>
      events (restore_layers w)
      = EvLog INFO MsgRestoringLayers :: concat (layer_restored <$> LAYERS.*1)
  | Raise _ => False
  | Exit code => code = 1
  end.
Proof.
  pose proof (restore_layers_loop_all_or_exit (LAYERS.*1) w) as Hloop.
  unfold restore_layers. msimpl.
  destruct (restore_layers_loop (LAYERS.*1) w) as [[[]|e'|code] w' evs];
    cbn [outcome events] in *; [|done..].
  by rewrite Hloop.
Qed.

(** ** The exit status *)

Lemma exits_one_no_exit {A} (m : M DB A) : no_exit m → exits_one m.
Proof. intros Hm w code Hexit. by destruct (Hm w code). Qed.

Lemma exits_one_sys_exit {A} : exits_one (DB:=DB) (sys_exit (A:=A) 1).
Proof. by intros w code [= <-]. Qed.

Lemma exits_one_bind {A B} (m : M DB A) (k : A → M DB B) :
  exits_one m → (∀ a, exits_one (k a)) → exits_one (m ≫= k).
Proof.
  intros Hm Hk w code. rewrite outcome_bind.
  destruct (outcome (m w)) as [a|e|c] eqn:Ho; [apply Hk|done|].
  intros [= <-]. by apply (Hm w).
Qed.

Lemma exits_one_try {A} (body : M DB A) handler :
  exits_one body → (∀ e h, handler e = Some h → exits_one h) →
  exits_one (try_except body handler).
Proof.
  intros Hb Hh w code. rewrite outcome_try.
  destruct (outcome (body w)) as [a|e|c] eqn:Ho; [done| |].
  - destruct (handler e) as [h|] eqn:He; [by eapply Hh|done].
  - intros [= <-]. by apply (Hb w).
Qed.

Lemma no_exit_manage_backup : no_exit (DB:=DB) manage_backup.
Proof. unfold manage_backup, _create_file_backup. nx. Qed.

Lemma no_exit_restore_backup : no_exit (DB:=DB) restore_backup.
Proof. unfold restore_backup. nx. Qed.

Lemma no_exit_delete_backup : no_exit (DB:=DB) delete_backup.
Proof. unfold delete_backup. nx. Qed.

Lemma no_exit_disconnect : no_exit (DB:=DB) disconnect.
Proof.
  intros w code. unfold disconnect, get_attr_conn, cur_close, conn_close.
  msimpl. destruct (conn w) eqn:Hconn; msimpl; [|done].
  destruct (cur w); msimpl; [|done]. rewrite Hconn. by msimpl.
Qed.

Create HintDb exits.

Ltac exits_one_step :=
  match goal with
  | |- exits_one _ => solve [eauto with exits]
  | |- exits_one (sys_exit 1) => apply exits_one_sys_exit
  | |- exits_one (mbind _ _) => apply exits_one_bind; [|intros ?]
  | |- exits_one (try_except _ _) =>
      apply exits_one_try;
      [|intros ? ? ?; cbv beta in *; repeat case_match; simplify_eq]
  | |- exits_one (if ?b then _ else _) => destruct b
  | |- exits_one _ =>
      apply exits_one_no_exit;
      solve [ nx
            | apply no_exit_returns; nx
            | apply no_exit_manage_backup
            | apply no_exit_restore_backup
            | apply no_exit_delete_backup
            | apply no_exit_disconnect
            | apply no_exit_update_osm_tables
            | apply no_exit_returns, returns_download_pbf
            | apply no_exit_returns, returns_backup_tables
            | apply no_exit_returns, returns_restore_tables
            | apply no_exit_returns, returns_drop_tables
            | apply no_exit_returns, returns_backup_layers
            | apply no_exit_returns, returns_create_layers_loop ]
  end.

Lemma exits_one_prepare_download : exits_one (DB:=DB) prepare_download.
Proof. unfold prepare_download. repeat exits_one_step. Qed.

Lemma exits_one_prepare_update backup_is_done :
  exits_one (DB:=DB) (prepare_update backup_is_done).
Proof. unfold prepare_update. repeat exits_one_step. Qed.

Lemma exits_one_update_db : exits_one (DB:=DB) update_db.
Proof. unfold update_db. repeat exits_one_step. Qed.

Lemma exits_one_create_layers : exits_one (DB:=DB) create_layers.
Proof. unfold create_layers. repeat exits_one_step. Qed.

Local Hint Resolve exits_one_prepare_download exits_one_prepare_update
  exits_one_update_db exits_one_create_layers : exits.

(** The freshness check only reads. *)
Lemma final_check_if_obsolete w : final (check_if_obsolete w) = w.
Proof.
  unfold check_if_obsolete, os_stat_size, requests_head. msimpl.
  destruct (files w !! PBF_FILENAME); msimpl; [|done].
  destruct (fs_fault w OpStat) as [e|]; msimpl; [by destruct e|].
  destruct (remote_head w) as [[| |n]|]; msimpl; try done.
  by case_bool_decide.
Qed.

(** X19.  [check_if_obsolete] changes nothing, and it answers [True]
    exactly when the local extract can be measured and the server announces
    a size that differs from it. *)
Theorem check_if_obsolete_true_iff w :
  final (check_if_obsolete w) = w ∧
  (outcome (check_if_obsolete w) = Return true ↔
   ∃ data n,
     files w !! PBF_FILENAME = Some data ∧ fs_fault w OpStat = None ∧
     remote_head w = Some (LengthIs n) ∧ Z.of_nat (length data) ≠ n).
Proof.
  split; [apply final_check_if_obsolete|].
  unfold check_if_obsolete, os_stat_size, requests_head. msimpl.
  destruct (files w !! PBF_FILENAME) as [data|]; msimpl;
    [|split; [done|by intros (? & ? & ? & _)]].
  destruct (fs_fault w OpStat) as [e|]; msimpl;
    [split; [by destruct e|by intros (? & ? & _ & ? & _)]|].
  destruct (remote_head w) as [[| |n]|]; msimpl;
    try (split; [done|by intros (? & ? & _ & _ & ? & _)]).
  case_bool_decide as Hsize; msimpl.
  - split; [done|]. intros (data' & n' & ? & _ & ? & Hne). by simplify_eq.
  - split; [|done]. intros _. by exists data, n.
Qed.

(** X18.  The exit status of [run] is 0 or 1, and it is 0 only for the run
    that has nothing to do: no flag is set, the check found the local
    extract up to date (or missing), and nothing has been changed. *)
Theorem run_exit_status force_download force_update recreate_layers w code :
  outcome (run force_download force_update recreate_layers w) = Exit code →
  code = 1 ∨
  (code = 0 ∧
   force_download = false ∧ force_update = false ∧ recreate_layers = false ∧
   outcome (check_if_obsolete w) = Return false ∧
   final (run force_download force_update recreate_layers w) = w).
Proof.
  unfold run. cbv zeta. intros Hexit.
  assert (no_exit (DB:=DB) check_if_obsolete) as Hcheck_returns
    by (unfold check_if_obsolete; nx).
  destruct (outcome (check_if_obsolete w)) as [obsolete|e|c] eqn:Hcheck.
  2:{ by rewrite outcome_bind, Hcheck in Hexit. }
  2:{ by destruct (Hcheck_returns w c). }
  rewrite (bind_return_eq _ _ w obsolete Hcheck) in *.
  rewrite outcome_prepend in Hexit. rewrite final_prepend.
  rewrite final_check_if_obsolete in *.
  destruct (obsolete || force_download) eqn:Hneeded;
    [|destruct (negb force_update && negb recreate_layers) eqn:Hflags].
  - left. revert Hexit.
    lazymatch goal with |- outcome (?rest w) = _ → _ =>
      assert (exits_one rest) as Hrest by repeat exits_one_step;
      apply Hrest
    end.
  - right. revert Hexit. msimpl. intros [= <-].
    apply orb_false_elim in Hneeded as [-> ->].
    apply andb_true_iff in Hflags as [Hu Hl].
    apply negb_true_iff in Hu as ->. apply negb_true_iff in Hl as ->.
    done.
  - left. revert Hexit.
    lazymatch goal with |- outcome (?rest w) = _ → _ =>
      assert (exits_one rest) as Hrest by repeat exits_one_step;
      apply Hrest
    end.
Qed.

End Proofs.

(** * The program on concrete inputs *)

Module Runs.
Import TableDb Inputs.

(** The database of table names does what the statements say. *)
Global Instance table_db_lawful : LawfulDatabase TableDb.t.
Proof.
  split.
  - intros t d d'. unfold db_execute, database, execute.
    destruct (failed_transaction d); [done|]. intros [= <-] x.
    unfold db_exists, exists_, with_tables. cbn [tables].
    rewrite <-bool_decide_and. apply bool_decide_ext.
    by rewrite elem_of_difference, elem_of_singleton.
  - intros l src d d'. unfold db_execute, database, execute.
    destruct (failed_transaction d); [done|].
    destruct (_ && _); [|done]. intros [= <-] x.
    unfold db_exists, exists_, with_tables. cbn [tables].
    rewrite <-bool_decide_or. apply bool_decide_ext.
    rewrite elem_of_union, elem_of_singleton. tauto.
  - intros d d'. unfold db_commit, database, commit. by intros [= <-] x.
  - intros f d d'. unfold db_import, database, import.
    destruct f as [data|]; [|done].
    case_bool_decide as Hrc; [|by intros [= ? ?]]. intros [= <-] x.
    unfold db_exists, exists_, with_tables. cbn [tables].
    rewrite <-bool_decide_or. apply bool_decide_ext.
    unfold TABLES_OSM.
    rewrite !elem_of_union, !elem_of_singleton, !elem_of_cons, elem_of_empty,
      elem_of_nil.
    tauto.
Qed.

Global Instance table_db_copy : CopyLaw TableDb.t.
Proof.
  intros orig dest d d'. unfold db_execute, database, execute.
  destruct (failed_transaction d); [done|].
  case_bool_decide; [|done]. intros [= <-] x.
  unfold db_exists, exists_, with_tables. cbn [tables].
  rewrite <-bool_decide_or. apply bool_decide_ext.
  rewrite elem_of_union, elem_of_singleton. tauto.
Qed.

(** C5, on an input: without a local extract the check answers [False]. *)
Lemma check_if_obsolete_result_witness :
  files first_run !! PBF_FILENAME = None ∧
  outcome (check_if_obsolete first_run) = Return false.
Proof.
  split; [reflexivity|].
  apply (check_if_obsolete_result first_run). reflexivity.
Defined.

(** C10, on an input: the server does not answer, the local extract exists. *)
Lemma check_if_obsolete_propagates_witness :
  is_FileNotFoundError RequestException = false ∧
  outcome (check_if_obsolete offline_run) = Raise RequestException ∧
  ∀ force_download force_update recreate_layers,
    outcome (run force_download force_update recreate_layers offline_run)
    = Raise RequestException.
Proof.
  apply (check_if_obsolete_propagates offline_run extract_v1 RequestException);
    reflexivity.
Defined.

(** C4, on an input: ten bytes announced, four received, [True] returned. *)
Lemma download_pbf_ignores_length_witness :
  outcome (download_pbf short_download) = Return true ∧
  files (final (download_pbf short_download)) !! PBF_FILENAME
  = Some [x01; x02; x03; x04].
Proof.
  apply (download_pbf_ignores_length short_download serves_short 10);
    reflexivity.
Defined.

(** C3, on an input: no local extract, the server serves the new one. *)
Lemma run_without_local_extract_witness :
  (∀ force_update recreate_layers,
     outcome (run true force_update recreate_layers first_run) = Exit 1) ∧
  run false false false first_run
  = mkResult (Exit 0) first_run [EvLog INFO MsgMapFileNotFoundUpdateNeeded].
Proof. apply (run_without_local_extract first_run). reflexivity. Defined.

(** C3: the forced run did download the new extract before it gave up. *)
Example forced_first_run :
  let r := run true false false first_run in
  outcome r = Exit 1 ∧
  files (final r) !! PBF_FILENAME = Some extract_v2 ∧
  last (events r) = Some (EvLog FATAL MsgDownloadFailed) ∧
  Forall (λ ev, is_db_event ev = false) (events r).
Proof. vm_compute. split_and!; try done. repeat constructor. Qed.

(** C2: a stale extract is replaced by the new one, the run returns, and
    nothing of [update_db] or [create_layers] has happened. *)
Example stale_run_downloads_only :
  let r := run false false false stale_run in
  outcome r = Return () ∧
  files (final r) !! PBF_FILENAME = Some extract_v2 ∧
  last (events r) = Some (EvLog INFO MsgFileBackupDeleted) ∧
  Forall (λ ev, is_db_event ev = false ∧ is_update_db_event ev = false)
    (events r).
Proof. vm_compute. split_and!; try done. repeat constructor. Qed.

(** C6: the statement of [line_water] fails; the process exits with status
    1, the layers are gone, their backups are still there, and no restore
    was sent. *)
Example failed_layer_is_not_restored :
  let r := create_layers (with_connection no_line_db) in
  outcome r = Exit 1 ∧
  events r
  = [ EvLog INFO MsgCreatingLayers;
      EvLog INFO MsgBackingUpLayers;
      EvLog INFO (MsgBackingUpLayer "line_water");
      EvExecute (CopyTable "line_water" "line_water_backup") true;
      EvCommit true;
      EvLog INFO (MsgBackingUpLayer "area_water");
      EvExecute (CopyTable "area_water" "area_water_backup") true;
      EvCommit true;
      EvExecute (DropTableIfExists "line_water") true; EvCommit true;
      EvExecute (DropTableIfExists "area_water") true; EvCommit true;
      EvLog INFO (MsgCreatingLayer "line_water");
      EvExecute (CreateLayer "line_water" "planet_osm_line") false;
      EvLog ERROR (MsgLayerFailed "line_water" DatabaseError);
      EvLog FATAL MsgLayersFailed ] ∧
  db_exists "line_water" (db (final r)) = false ∧
  db_exists "area_water" (db (final r)) = false ∧
  db_exists "line_water_backup" (db (final r)) = true ∧
  db_exists "area_water_backup" (db (final r)) = true.
Proof. vm_compute. done. Qed.

(** C6: what [restore_layers] would have sent. *)
Example restore_layers_sends_copies :
  let r := restore_layers (final (create_layers (with_connection no_line_db))) in
  events r
  = [ EvLog INFO MsgRestoringLayers;
      EvLog INFO (MsgRestoringLayer "line_water");
      EvExecute (CopyTable "line_water_backup" "line_water") false;
      EvLog FATAL (MsgLayerRestoreFailed "line_water" DatabaseError) ] ∧
  is_layer_restore
    (EvExecute (CopyTable "line_water_backup" "line_water") false) = true.
Proof. vm_compute. done. Qed.

(** C8 (counterexample).  Both layers are built, [line_water] first, and
    that is not the order of their names: [area_water] comes before
    [line_water]. *)
Lemma layers_not_in_name_order_counterexample :
  let r := create_layers (with_connection full_db) in
  outcome r = Return () ∧
  layers_sent (events r) = ["line_water"; "area_water"] ∧
  in_name_order (layers_sent (events r)) = false ∧
  in_name_order ["area_water"; "line_water"] = true.
Proof. vm_compute. done. Qed.

(** C8, on an input: all tables and layers exist. *)
Lemma create_layers_in_listed_order_witness :
  let w := with_connection full_db in
  let line := ("line_water", CreateLayer "line_water" "planet_osm_line") in
  let area := ("area_water", CreateLayer "area_water" "planet_osm_polygon") in
  let w1 := final (backup_layers w) in
  ∃ n tail after,
    events (create_layers w)
    = (EvLog INFO MsgCreatingLayers :: events (backup_layers w)
       ++ events (drop_tables (LAYERS.*1) w1)
       ++ concat (layer_built <$> take n [line; area]) ++ tail ++ after)%list ∧
    layers_sent (events (create_layers w))
      `prefix_of` ["line_water"; "area_water"] ∧
    ((n = 2%nat ∧ tail = [] ∧ layers_sent after = [] ∧
      outcome (create_layers w) = Return ()) ∨
     (∃ item, [line; area] !! n = Some item ∧ layer_failed item tail ∧
        after = [EvLog FATAL MsgLayersFailed] ∧
        outcome (create_layers w) = Exit 1)).
Proof.
  apply (create_layers_in_listed_order (with_connection full_db)).
  split; by eexists.
Defined.

Example layers_built_in_order :
  events (create_layers_loop LAYERS (with_connection base_db))
  = [ EvLog INFO (MsgCreatingLayer "line_water");
      EvExecute (CreateLayer "line_water" "planet_osm_line") true;
      EvCommit true;
      EvLog INFO (MsgCreatingLayer "area_water");
      EvExecute (CreateLayer "area_water" "planet_osm_polygon") true;
      EvCommit true ].
Proof. vm_compute. done. Qed.

(** C8: when the first statement fails the second layer is not touched. *)
Example first_layer_failure_stops_the_loop :
  let r := create_layers_loop LAYERS (with_connection (mk ∅ false 0)) in
  outcome r = Return false ∧
  events r
  = [ EvLog INFO (MsgCreatingLayer "line_water");
      EvExecute (CreateLayer "line_water" "planet_osm_line") false;
      EvLog ERROR (MsgLayerFailed "line_water" DatabaseError) ].
Proof. vm_compute. done. Qed.

(** C1 (counterexample).  [planet_osm_roads] does not exist, so its backup
    fails.  [update_db] does not abort: it sends the DROP of the first
    original, runs the importer, which replaces the originals, and returns
    [True]. *)
Lemma backup_failure_abort_counterexample :
  let w := with_connection no_roads_db in
  let r := update_db w in
  outcome (backup_tables TABLES_OSM w) = Return false ∧
  outcome r = Return true ∧
  events r
  = [ EvLog INFO MsgBackingUpTables;
      EvLog INFO (MsgBackingUpTable "planet_osm_line");
      EvExecute (CopyTable "planet_osm_line" "planet_osm_line_backup") true;
      EvCommit true;
      EvLog INFO (MsgBackingUpTable "planet_osm_point");
      EvExecute (CopyTable "planet_osm_point" "planet_osm_point_backup") true;
      EvCommit true;
      EvLog INFO (MsgBackingUpTable "planet_osm_polygon");
      EvExecute (CopyTable "planet_osm_polygon" "planet_osm_polygon_backup")
        true;
      EvCommit true;
      EvLog INFO (MsgBackingUpTable "planet_osm_roads");
      EvExecute (CopyTable "planet_osm_roads" "planet_osm_roads_backup") false;
      EvLog WARNING (MsgTableBackupFailed "planet_osm_roads" DatabaseError);
      EvExecute (DropTableIfExists "planet_osm_line") false;
      EvLog WARNING (MsgDropTableFailed "planet_osm_line" DatabaseError);
      EvLog INFO MsgImportStarting;
      EvImport 0;
      EvLog INFO MsgDbUpdateDone ] ∧
  db_exists "planet_osm_roads" (db w) = false ∧
  db_exists "planet_osm_roads" (db (final r)) = true.
Proof. vm_compute. done. Qed.

(** C1, on an input: the same failed backup. *)
Lemma backup_failure_does_not_abort_witness :
  let w := with_connection no_roads_db in
  let w1 := final (backup_tables TABLES_OSM w) in
  (∃ ok rest1 rest2,
     events (drop_tables TABLES_OSM w1)
     = EvExecute (DropTableIfExists "planet_osm_line") ok :: rest1 ∧
     events (update_db w)
     = (events (backup_tables TABLES_OSM w)
        ++ events (drop_tables TABLES_OSM w1)
        ++ EvLog INFO MsgImportStarting :: rest2)%list) ∧
  Forall (backs_up_or_drops TABLES_OSM) (statements (events (update_db w))) ∧
  ∀ t ok, t ∈ TABLES_OSM →
    (EvExecute (DropTableIfExists (backup_name t)) ok ∉ events (update_db w)) ∧
    (EvExecute (CopyTable (backup_name t) t) ok ∉ events (update_db w)).
Proof.
  assert (is_Some (cur (with_connection no_roads_db))) as Hcur by (by eexists).
  assert (outcome (backup_tables TABLES_OSM (with_connection no_roads_db))
          = Return false) as Hbackup by (vm_compute; reflexivity).
  exact (proj1 (backup_failure_does_not_abort (with_connection no_roads_db) Hcur)
               Hbackup).
Defined.

(** C7 (counterexample).  After the same call, which returns control, the
    table [planet_osm_line] and its backup both exist. *)
Lemma partial_backup_breaks_duality_counterexample :
  let r := update_db (with_connection no_roads_db) in
  outcome r = Return true ∧
  db_exists "planet_osm_line" (db (final r)) = true ∧
  db_exists "planet_osm_line_backup" (db (final r)) = true.
Proof. vm_compute. done. Qed.

(** C7, on an input: all tables and layers exist, nothing is refused. *)
Lemma replaced_set_is_clean_witness :
  let w := with_connection full_db in
  (∀ t, t ∈ TABLES_OSM →
     db_exists t (db (final (update_db w))) = true ∧
     db_exists (backup_name t) (db (final (update_db w))) = false) ∧
  (∀ l, l ∈ LAYERS.*1 →
     db_exists l (db (final (create_layers w))) = true ∧
     db_exists (backup_name l) (db (final (create_layers w))) = false) ∧
  (let w2 :=
     final (drop_tables TABLES_OSM (final (backup_tables TABLES_OSM w))) in
   outcome (update_db w)
   = match outcome (update_osm_tables w2) with
     | Return true => Return true
     | Return false => Exit 1
     | Raise e => Raise e
     | Exit code => Exit code
     end) ∧
  (let w2 := final (drop_tables (LAYERS.*1) (final (backup_layers w))) in
   ∃ created,
     outcome (create_layers_loop LAYERS w2) = Return created ∧
     outcome (create_layers w) = if created then Return () else Exit 1).
Proof.
  assert (Hconnected : connected (with_connection full_db))
    by (split; by eexists).
  destruct (replaced_set_is_clean (with_connection full_db) Hconnected)
    as (Hupdate & Hlayers & Houtcome & Hcreated).
  split_and!; [| |exact Houtcome|exact Hcreated].
  - apply (Hupdate true); [vm_compute; reflexivity|].
    vm_compute. repeat constructor.
  - apply Hlayers; [vm_compute; reflexivity|].
    vm_compute. repeat constructor.
Defined.

(** C9 (counterexample).  On a fresh object and a local extract that is up
    to date, a run with [force_update] completes [update_db]: the importer
    runs, the method reports the update as done and returns [True]; only
    then [create_layers] ends the process. *)
Lemma update_db_completes_without_connection_counterexample :
  let w := init fresh_run in
  outcome (update_db w) = Return true ∧
  outcome (run false true false w) = Exit 1 ∧
  events (run false true false w)
  = [ EvLog INFO MsgNoUpdateNeeded;
      EvLog INFO MsgBackingUpTables;
      EvLog INFO (MsgBackingUpTable "planet_osm_line");
      EvLog WARNING (MsgTableBackupFailed "planet_osm_line" AttributeError);
      EvLog WARNING (MsgDropTableFailed "planet_osm_line" AttributeError);
      EvLog INFO MsgImportStarting;
      EvImport 0;
      EvLog INFO MsgDbUpdateDone;
      EvLog INFO MsgCreatingLayers;
      EvLog INFO MsgBackingUpLayers;
      EvLog INFO (MsgBackingUpLayer "line_water");
      EvLog WARNING (MsgLayerBackupFailed "line_water" AttributeError);
      EvLog WARNING (MsgDropTableFailed "line_water" AttributeError);
      EvLog INFO (MsgCreatingLayer "line_water");
      EvLog ERROR (MsgLayerFailed "line_water" AttributeError);
      EvLog FATAL MsgLayersFailed ].
Proof. vm_compute. done. Qed.

(** C9: the module's own call, [run] with [recreate_layers] alone. *)
Example main_exits_with_1 : outcome (main fresh_run) = Exit 1.
Proof. vm_compute. done. Qed.

(** ** Further properties, on inputs *)

Lemma manage_backup_moves_extract_witness :
  outcome (manage_backup stale_run) = Return true ∧
  files (final (manage_backup stale_run)) !! PBF_FILENAME = None ∧
  files (final (manage_backup stale_run)) !! PBF_BACKUP = Some extract_v1 ∧
  ∀ name, name ≠ PBF_FILENAME → name ≠ PBF_BACKUP →
    files (final (manage_backup stale_run)) !! name = files stale_run !! name.
Proof. apply (manage_backup_moves_extract extract_v1 stale_run); reflexivity. Defined.

Lemma backup_then_restore_witness :
  let r := (manage_backup;; restore_backup) stale_run in
  outcome r = Return () ∧
  files (final r) !! PBF_FILENAME = Some extract_v1 ∧
  files (final r) !! PBF_BACKUP = None ∧
  ∀ name, name ≠ PBF_FILENAME → name ≠ PBF_BACKUP →
    files (final r) !! name = files stale_run !! name.
Proof. apply (backup_then_restore extract_v1 stale_run); reflexivity. Defined.

Lemma restore_backup_without_backup_witness :
  restore_backup first_run
  = mkResult (Return ()) first_run
      [EvLog WARNING (MsgFileRestoreFailed FileNotFoundError)].
Proof. apply (restore_backup_without_backup first_run). reflexivity. Defined.

Lemma prepare_download_refused_witness :
  let r := prepare_download refused_move in
  outcome r = Exit 1 ∧
  events r = [ EvLog INFO MsgCheckingMapFile; EvLog FATAL MsgAccessDenied ] ∧
  final r = set_files (files (final r)) refused_move ∧
  (∀ name, name ≠ PBF_BACKUP →
     files (final r) !! name = files refused_move !! name) ∧
  (∀ data e, files refused_move !! PBF_FILENAME = Some data →
     fs_fault refused_move OpMove = Some e →
     fs_fault refused_move OpOpen = None →
     fs_fault refused_move OpWrite = None →
     files (final r) !! PBF_BACKUP = Some data).
Proof.
  apply (prepare_download_refused PermissionError refused_move);
    reflexivity.
Defined.

(** The refused backup has overwritten the older backup file, and the
    extract is still in place. *)
Example refused_move_overwrites_the_backup :
  files refused_move !! PBF_BACKUP = Some [x00] ∧
  files (final (prepare_download refused_move)) !! PBF_BACKUP
  = Some extract_v1 ∧
  files (final (prepare_download refused_move)) !! PBF_FILENAME
  = Some extract_v1.
Proof. vm_compute. done. Qed.

Lemma run_fresh_skip_witness :
  run false false false fresh_run
  = mkResult (Exit 0) fresh_run [EvLog INFO MsgNoUpdateNeeded].
Proof. apply (run_fresh_skip extract_v2 fresh_run); reflexivity. Defined.

Lemma download_pbf_request_fails_witness :
  download_pbf offline_run
  = mkResult (Return false)
      (set_files (<[PBF_FILENAME := []]> (files offline_run)) offline_run)
      [EvLog FATAL (MsgDownloadError RequestException)].
Proof. apply (download_pbf_request_fails offline_run); reflexivity. Defined.

Lemma prepare_update_restores_witness :
  let r := prepare_update true after_backup_offline in
  outcome r = Exit 1 ∧
  files (final r) !! PBF_FILENAME = Some extract_v1 ∧
  files (final r) !! PBF_BACKUP = None.
Proof.
  apply (prepare_update_restores extract_v1 after_backup_offline);
    reflexivity.
Defined.

Lemma prepare_update_commits_witness :
  let r := prepare_update true after_backup in
  outcome r = Return true ∧
  files (final r) !! PBF_FILENAME
  = files (final (download_pbf after_backup)) !! PBF_FILENAME ∧
  (fs_fault after_backup OpRemove = None →
   files (final r) !! PBF_BACKUP = None).
Proof. apply (prepare_update_commits after_backup). reflexivity. Defined.

Lemma connect_result_witness :
  connect unreachable
  = mkResult (Exit 1) unreachable [EvLog FATAL MsgConnectFailed].
Proof. apply (connect_result unreachable). reflexivity. Defined.

Lemma update_db_returns_only_true_witness :
  ∃ b, outcome (update_db (with_connection full_db)) = Return b ∧ b = true.
Proof.
  exists true. split; [vm_compute; reflexivity|].
  apply (update_db_returns_only_true (with_connection full_db)).
  vm_compute. reflexivity.
Defined.

Lemma update_db_without_importer_witness :
  outcome (update_db no_importer) = Raise FileNotFoundError ∧
  ∃ rest,
    events (update_db no_importer)
    = (events (backup_tables TABLES_OSM no_importer)
       ++ events (drop_tables TABLES_OSM
                    (final (backup_tables TABLES_OSM no_importer)))
       ++ rest)%list.
Proof. apply (update_db_without_importer no_importer). reflexivity. Defined.

Lemma drop_tables_all_or_false_witness :
  (outcome (drop_tables TABLES_OSM (with_connection full_db)) = Return true ↔
   Forall (λ ev, is_db_failure ev = false)
     (events (drop_tables TABLES_OSM (with_connection full_db)))) ∧
  (outcome (drop_tables TABLES_OSM (with_connection full_db)) = Return true →
   ∀ x, db_exists x (db (final (drop_tables TABLES_OSM (with_connection full_db))))
        = db_exists x (db (with_connection full_db))
          && bool_decide (x ∉ TABLES_OSM)).
Proof.
  assert (Hconnected : connected (with_connection full_db))
    by (split; by eexists).
  exact (drop_tables_all_or_false TABLES_OSM (with_connection full_db)
           Hconnected).
Defined.

Lemma backup_tables_creates_backups_witness :
  outcome (backup_tables TABLES_OSM (with_connection full_db)) = Return true ∧
  ∀ x, db_exists x (db (final (backup_tables TABLES_OSM (with_connection full_db))))
       = db_exists x (db (with_connection full_db))
         || bool_decide (x ∈ backup_name <$> TABLES_OSM).
Proof.
  assert (Hconnected : connected (with_connection full_db))
    by (split; by eexists).
  assert (Hclean : Forall (λ ev, is_db_failure ev = false)
            (events (backup_tables TABLES_OSM (with_connection full_db))))
    by (vm_compute; repeat constructor).
  exact (backup_tables_creates_backups TABLES_OSM (with_connection full_db)
           Hconnected Hclean).
Defined.

Lemma update_db_import_failure_restores_witness :
  outcome (update_db import_fails) = Exit 1 ∧
  ∀ t, t ∈ TABLES_OSM →
    db_exists t (db (final (update_db import_fails))) = true ∧
    db_exists (backup_name t) (db (final (update_db import_fails))) = false.
Proof.
  assert (Hconnected : connected import_fails) by (split; by eexists).
  assert (Hclean : Forall (λ ev, is_db_failure ev = false)
            (events (update_db import_fails)))
    by (vm_compute; repeat constructor).
  assert (Hexit : outcome (update_db import_fails) = Exit 1)
    by (vm_compute; reflexivity).
  split; [exact Hexit|].
  exact (proj2 (update_db_import_failure_restores import_fails 1
                  Hconnected Hclean Hexit)).
Defined.

(** The importer fails: the copies go back, the backups are dropped, and
    the process ends with the database as it was. *)
Example import_failure_leaves_the_database :
  let r := update_db import_fails in
  outcome r = Exit 1 ∧ db (final r) = db import_fails.
Proof. vm_compute. done. Qed.

Lemma run_exit_status_witness :
  0 = 1 ∨
  (0 = 0 ∧ false = false ∧ false = false ∧ false = false ∧
   outcome (check_if_obsolete fresh_run) = Return false ∧
   final (run false false false fresh_run) = fresh_run).
Proof.
  apply (run_exit_status false false false fresh_run 0).
  vm_compute. reflexivity.
Defined.

(** A stale extract is obsolete, a fresh one is not. *)
Example check_if_obsolete_on_inputs :
  outcome (check_if_obsolete stale_run) = Return true ∧
  outcome (check_if_obsolete fresh_run) = Return false.
Proof. vm_compute. done. Qed.

Example prepare_update_installs_new_extract :
  files (final (prepare_update true after_backup)) !! PBF_FILENAME
  = Some extract_v2.
Proof. vm_compute. done. Qed.

End Runs.
